(** * pufferlib/vectorization.py: the vectorised environment orchestrator

    A shallow embedding of [MultiEnv], the [Backend] interface with its
    [Serial], [Multiprocessing] and [SharedMemoryMultiprocessing]
    implementations, and the [VecEnv] orchestrator, followed by the
    properties of the sharding protocol.

    Python objects mutated in place become explicit state; a method of a
    class [C] is a computation in the monad [M C], which threads the
    object and either returns, raises or blocks.  A raise keeps the
    mutations made before it, as in Python. *)

From Stdlib Require Import ZArith String SpecFloat.
From stdpp Require Import base tactics option list numbers.

Local Open Scope string_scope.
Local Open Scope Z_scope.
Local Open Scope list_scope.

(** ** Python runtime: exceptions and the object monad *)

Module Py.

Inductive Exc : Type :=
| AssertionError (msg : string)
| NotImplementedError
| ValueError (msg : string)
| TypeError
| AttributeError (attr : string)
| ZeroDivisionError.

(** How a call ends: it returns, it raises, or it never returns (a
    blocking [Queue.get] on a queue nobody will fill). *)
Inductive result (A : Type) : Type :=
| Ok (a : A)
| Raise (e : Exc)
| Blocked.
Global Arguments Ok {A} a.
Global Arguments Raise {A} e.
Global Arguments Blocked {A}.

Definition is_ok {A} (r : result A) : bool :=
  match r with Ok _ => true | _ => false end.

Definition M (S A : Type) : Type := S -> S * result A.

Definition ret {S A} (a : A) : M S A := fun s => (s, Ok a).
Definition raise {S A} (e : Exc) : M S A := fun s => (s, Raise e).
Definition bind {S A B} (m : M S A) (k : A -> M S B) : M S B :=
  fun s =>
    match m s with
    | (s', Ok a) => k a s'
    | (s', Raise e) => (s', Raise e)
    | (s', Blocked) => (s', Blocked)
    end.
Definition lift {S A} (r : result A) : M S A := fun s => (s, r).

(** [assert cond, msg] *)
Definition assert {S} (cond : bool) (msg : string) : M S unit :=
  if cond then ret tt else raise (AssertionError msg).

(** ** Values a caller may pass where an [int] is expected *)
Inductive PyVal : Type :=
| PyInt (z : Z)
| PyBool (b : bool)
| PyFloat (f : spec_float)
| PyStr (s : string)
| PyNone.

(** [v > 0]: numbers compare with the integer, [str] and [None] do not. *)
Definition gt_zero (v : PyVal) : result bool :=
  match v with
  | PyInt z => Ok (0 <? z)
  | PyBool b => Ok b
  | PyFloat f => Ok (SFltb (S754_zero false) f)
  | PyStr _ | PyNone => Raise TypeError
  end.

(** ** Insertion-ordered dictionaries *)
Section Dict.
Context {K : Type} `{EqDecision K} {V : Type}.

Definition dict : Type := list (K * V).

Definition keys (d : dict) : list K := d.*1.
Definition values (d : dict) : list V := d.*2.

Fixpoint dict_get (k : K) (d : dict) : option V :=
  match d with
  | [] => None
  | (k', v) :: d' => if decide (k = k') then Some v else dict_get k d'
  end.

(** [d[k] = v]: an existing key keeps its position. *)
Fixpoint dict_set (k : K) (v : V) (d : dict) : dict :=
  match d with
  | [] => [(k, v)]
  | (k', v') :: d' =>
      if decide (k = k') then (k, v) :: d' else (k', v') :: dict_set k v d'
  end.

(** [dict(pairs)] *)
Definition dict_of (pairs : list (K * V)) : dict :=
  foldl (fun d kv => dict_set kv.1 kv.2 d) [] pairs.
End Dict.
Global Arguments dict : clear implicits.

(** [{k: f(k) for k in d}] *)
Definition dict_comp {K} `{EqDecision K} {V W} (f : K -> W) (d : dict K V)
  : dict K W :=
  dict_of ((fun k => (k, f k)) <$> keys d).

(** ** The numpy functions the module calls *)
Module np.

(** [ary[st:end]] along the first axis. *)
Definition slice {A} (st en : nat) (ary : list A) : list A :=
  take (en - st) (drop st ary).

(** [np.split(ary, sections)] for an integer [sections]: the modulo
    test of [split] (Python's [%], which divides by zero with an
    exception), then [array_split], which refuses a non-positive
    count and cuts at the cumulated section sizes. *)
Definition split {A} (ary : list A) (sections : Z) : result (list (list A)) :=
  let N := Z.of_nat (length ary) in
  if sections =? 0 then Raise ZeroDivisionError
  else if negb (N mod sections =? 0) then
    Raise (ValueError "array split does not result in an equal division")
  else if sections <=? 0 then
    Raise (ValueError "number sections must be larger than 0.")
  else
    let each := Z.to_nat (N / sections) in
    Ok ((fun i => slice (i * each) ((i + 1) * each) ary)
          <$> seq 0 (Z.to_nat sections)).

(** [np.stack(arrays)]: at least one array, all of one shape; the
    result is the array whose rows are the inputs. *)
Definition stack {A} (shape : A -> list nat) (arrays : list A)
  : result (list A) :=
  match arrays with
  | [] => Raise (ValueError "need at least one array to stack")
  | a :: _ =>
      if forallb (fun b => bool_decide (shape b = shape a)) arrays
      then Ok arrays
      else Raise (ValueError "all input arrays must have the same shape")
  end.

(** [np.int64]: arithmetic on 64-bit integers wraps around. *)
Definition int64 (z : Z) : Z := (z + 2 ^ 63) `mod` 2 ^ 64 - 2 ^ 63.

(** [np.prod(shape)] of a tuple of integers, in 64 bits. *)
Definition prod (shape : list Z) : Z :=
  foldl (fun acc d => int64 (acc * d)) 1 shape.
End np.

End Py.
Import Py.

Declare Scope py_scope.
Delimit Scope py_scope with py.
Notation "'let*' x := m 'in' k" := (bind m (fun x => k))
  (at level 10, x pattern, m at level 100, k at level 200) : py_scope.
Notation "m ;; k" := (bind m (fun _ => k))
  (at level 100, k at level 200, right associativity) : py_scope.
Local Open Scope py_scope.

Definition RESET : Z := 0.
Definition SEND : Z := 1.
Definition RECV : Z := 2.

(** ** The environment interface

    An environment is opaque to this file: [reset(seed)] gives the
    observation of each agent, [step(actions)] the four per-agent maps,
    [done] is the flag [MultiEnv.step] consults and [seed(value)] reseeds.
    [obs_shape] is the numpy shape of one observation value and [rew_zero]
    the integer [0] as a reward. *)

Class Environment (Key Obs Act Rew InfoV E : Type) := {
  env_reset : option Z -> E -> E * dict Key Obs;
  env_step : dict Key Act -> E ->
             E * (dict Key Obs * dict Key Rew * dict Key bool * dict Key InfoV);
  env_done : E -> bool;
  env_seed : Z -> E -> E;
  obs_shape : Obs -> list nat;
  rew_zero : Rew;
}.

Section Model.
Context {Key : Type} `{EqDecision Key} {Obs Act Rew InfoV E : Type}.
Context `{!Environment Key Obs Act Rew InfoV E}.

(** One environment's [(obs, rewards, dones, infos)]. *)
Definition StepTuple : Type :=
  dict Key Obs * dict Key Rew * dict Key bool * dict Key InfoV.

Definition ActionMap : Type := dict Key Act.

(** *** class MultiEnv: [self.envs] *)

Definition MultiEnv : Type := list E.

Definition MultiEnv_init (env_creator : unit -> E) (n : Z) : MultiEnv :=
  (fun _ => env_creator tt) <$> seq 0 (Z.to_nat n).

Fixpoint MultiEnv_seed (seed : Z) (envs : MultiEnv) : MultiEnv :=
  match envs with
  | [] => []
  | env :: rest => env_seed seed env :: MultiEnv_seed (seed + 1) rest
  end.

Fixpoint MultiEnv_reset_all (seed : option Z) (envs : MultiEnv)
  : MultiEnv * list StepTuple :=
  match envs with
  | [] => ([], [])
  | e :: rest =>
      let (e', obs) := env_reset seed e in
      let seed' := match seed with Some s => Some (s + 1) | None => None end in
      let (rest', async_handles) := MultiEnv_reset_all seed' rest in
      (e' :: rest', (obs, [], [], []) :: async_handles)
  end.

(** The body of the loop of [step] for one [(env, actions)] pair. *)
Definition step_one (env : E) (actions : ActionMap) : E * StepTuple :=
  if env_done env then
    let (env', obs) := env_reset None env in
    let rewards := dict_comp (fun _ => rew_zero) obs in
    let dones := dict_comp (fun _ => false) obs in
    (env', (obs, rewards, dones, []))
  else env_step actions env.

Fixpoint step_loop (envs : MultiEnv) (actions_lists : list ActionMap)
  : MultiEnv * list StepTuple :=
  match envs, actions_lists with
  | env :: envs', actions :: rest =>
      let (env', r) := step_one env actions in
      let (envs'', returns) := step_loop envs' rest in
      (env' :: envs'', r :: returns)
  | _, _ => (envs, [])
  end.

Definition MultiEnv_step (actions_lists : list ActionMap)
  : M MultiEnv (list StepTuple) :=
  fun envs =>
    if bool_decide (length envs = length actions_lists) then
      let (envs', returns) := step_loop envs actions_lists in
      (envs', Ok returns)
    else (envs, Raise (AssertionError "")).

(** What [recv] of a backend hands to the orchestrator: the list of
    tuples of [reset_all] and [step], or, from a worker process, whatever
    response is next on its queue: [None] after a [seed], the
    [(count, dones)] header of the shared-memory step. *)
Inductive Response : Type :=
| Resp_tuples (tuples : list StepTuple)
| Resp_none
| Resp_header (num_new_obs : nat) (dones : list (dict Key bool)).

(** *** class Backend: the interface, every method of which raises *)

Definition Backend_send {B} (actions : list ActionMap) : M B unit :=
  raise NotImplementedError.
Definition Backend_recv {B} : M B Response :=
  raise NotImplementedError.
Definition Backend_close {B} : M B unit :=
  raise NotImplementedError.

(** What [VecEnv] asks of a backend class: the constructor
    [backend_cls(env_creator, n)] and the methods it calls. *)
Class Backend (B : Type) := {
  backend_init : (unit -> E) -> Z -> result B;
  backend_async_reset_all : option Z -> M B unit;
  backend_send : list ActionMap -> M B unit;
  backend_recv : M B Response;
  backend_close : M B unit;
}.

(** *** class Serial(MultiEnv, Backend) *)

Record Serial : Type := {
  envs : MultiEnv;
  async_handles : option (list StepTuple);
}.

Definition Serial_init (env_creator : unit -> E) (n : Z) : result Serial :=
  Ok {| envs := MultiEnv_init env_creator n; async_handles := None |}.

Definition Serial_async_reset_all (seed : option Z) : M Serial unit :=
  fun self =>
    match async_handles self with
    | None =>
        let (envs', handles) := MultiEnv_reset_all seed (envs self) in
        ({| envs := envs'; async_handles := Some handles |}, Ok tt)
    | Some _ => (self, Raise (AssertionError "reset called after send"))
    end.

Definition Serial_send (actions_lists : list ActionMap) : M Serial unit :=
  fun self =>
    match async_handles self with
    | None =>
        match MultiEnv_step actions_lists (envs self) with
        | (envs', Ok returns) =>
            ({| envs := envs'; async_handles := Some returns |}, Ok tt)
        | (envs', Raise e) =>
            ({| envs := envs'; async_handles := None |}, Raise e)
        | (envs', Blocked) =>
            ({| envs := envs'; async_handles := None |}, Blocked)
        end
    | Some _ => (self, Raise (AssertionError "send called before recv"))
    end.

Definition Serial_recv : M Serial Response :=
  fun self =>
    match async_handles self with
    | Some handles =>
        ({| envs := envs self; async_handles := None |},
         Ok (Resp_tuples handles))
    | None =>
        (self, Raise (AssertionError "recv called before reset or send"))
    end.

(** [Serial] defines no [close], and neither does [MultiEnv], the first
    base class: the method found is the one of [Backend]. *)
Definition Serial_close : M Serial unit := Backend_close.

#[export] Instance Serial_Backend : Backend Serial := {
  backend_init := Serial_init;
  backend_async_reset_all := Serial_async_reset_all;
  backend_send := Serial_send;
  backend_recv := Serial_recv;
  backend_close := Serial_close;
}.

(** *** class VecEnv *)

Record Binding : Type := {
  env_creator : unit -> E;
  max_agents : Z;
}.

Section VecEnv.
Context {B : Type} `{!Backend B}.

(** [agent_keys] is [None] until the first [recv] assigns the
    attribute. *)
Record VecEnv : Type := {
  binding : Binding;
  num_workers : Z;
  envs_per_worker : Z;
  state : Z;
  backends : list B;
  agent_keys : option (list (list (list Key)));
}.

Definition set_state (st : Z) (self : VecEnv) : VecEnv :=
  {| binding := binding self; num_workers := num_workers self;
     envs_per_worker := envs_per_worker self; state := st;
     backends := backends self; agent_keys := agent_keys self |}.

Definition set_backends (bs : list B) (self : VecEnv) : VecEnv :=
  {| binding := binding self; num_workers := num_workers self;
     envs_per_worker := envs_per_worker self; state := state self;
     backends := bs; agent_keys := agent_keys self |}.

Definition set_agent_keys (ks : list (list (list Key))) (self : VecEnv)
  : VecEnv :=
  {| binding := binding self; num_workers := num_workers self;
     envs_per_worker := envs_per_worker self; state := state self;
     backends := backends self; agent_keys := Some ks |}.

(** The list comprehension of [__init__].  The state threaded here is
    the list of the backends instantiated so far: what exists in the
    world whether or not the constructor completes. *)
Fixpoint create_backends (creator : unit -> E) (n : Z) (count : nat)
  : M (list B) (list B) :=
  match count with
  | O => ret []
  | S count' =>
      let* b := (fun world =>
                   match backend_init creator n with
                   | Ok b => (world ++ [b], Ok b)
                   | Raise e => (world, Raise e)
                   | Blocked => (world, Blocked)
                   end) in
      let* bs := create_backends creator n count' in
      ret (b :: bs)
  end.

Definition VecEnv_init (bnd : Binding) (workers : Z) (per_worker : PyVal)
  : M (list B) VecEnv :=
  let* positive := lift (gt_zero per_worker) in
  assert positive "Each worker must have at least 1 env";;
  (* assert type(envs_per_worker) == int; a bool is not of type int *)
  match per_worker with
  | PyInt n =>
      let* bs := create_backends (env_creator bnd) n (Z.to_nat workers) in
      ret {| binding := bnd; num_workers := workers; envs_per_worker := n;
             state := RESET; backends := bs; agent_keys := None |}
  | _ => raise (AssertionError "")
  end.

(** [for backend in self.backends: backend.close()] *)
Fixpoint close_loop (bs : list B) : list B * result unit :=
  match bs with
  | [] => ([], Ok tt)
  | b :: rest =>
      match backend_close b with
      | (b', Ok _) => let (rest', r) := close_loop rest in (b' :: rest', r)
      | (b', Raise e) => (b' :: rest, Raise e)
      | (b', Blocked) => (b' :: rest, Blocked)
      end
  end.

Definition VecEnv_close : M VecEnv unit :=
  fun self =>
    let (bs, r) := close_loop (backends self) in (set_backends bs self, r).

Definition next_seed (self : VecEnv) (seed : option Z) : option Z :=
  match seed with
  | Some s => Some (s + envs_per_worker self * max_agents (binding self))
  | None => None
  end.

Fixpoint async_reset_loop (self : VecEnv) (seed : option Z) (bs : list B)
  : list B * result unit :=
  match bs with
  | [] => ([], Ok tt)
  | b :: rest =>
      match backend_async_reset_all seed b with
      | (b', Ok _) =>
          let (rest', r) := async_reset_loop self (next_seed self seed) rest in
          (b' :: rest', r)
      | (b', Raise e) => (b' :: rest, Raise e)
      | (b', Blocked) => (b' :: rest, Blocked)
      end
  end.

Definition VecEnv_async_reset (seed : option Z) : M VecEnv unit :=
  fun self =>
    if state self =? RESET then
      let self := set_state RECV self in
      let (bs, r) := async_reset_loop self seed (backends self) in
      (set_backends bs self, r)
    else
      (self, Raise (AssertionError "Call reset only once on initialization")).

(** What [recv] gathers: [obs], [rewards], [dones], [infos]. *)
Definition Gathered : Type :=
  list Obs * list Rew * list bool * list (dict Key InfoV).

(** The inner loop of [recv] over one backend's tuples. *)
Fixpoint gather_envs (tuples : list StepTuple)
  : list (list Key) * Gathered :=
  match tuples with
  | [] => ([], ([], [], [], []))
  | (o, r, d, i) :: rest =>
      let '(a_keys, (obs, rewards, dones, infos)) := gather_envs rest in
      (keys o :: a_keys,
       (values o ++ obs, values r ++ rewards, values d ++ dones, i :: infos))
  end.

(** The outer loop of [recv]: the backends after their [recv], the
    ledger [self.agent_keys] as far as it was filled, and the flat
    lists.  Unpacking [o, r, d, i] from anything but a list of tuples
    is a [TypeError]. *)
Fixpoint recv_loop (bs : list B)
  : list B * list (list (list Key)) * result Gathered :=
  match bs with
  | [] => ([], [], Ok ([], [], [], []))
  | b :: rest =>
      match backend_recv b with
      | (b', Ok (Resp_tuples tuples)) =>
          let '(a_keys, (o, r, d, i)) := gather_envs tuples in
          let '(rest', ledger, res) := recv_loop rest in
          (b' :: rest', a_keys :: ledger,
           match res with
           | Ok (obs, rewards, dones, infos) =>
               Ok (o ++ obs, r ++ rewards, d ++ dones, i ++ infos)
           | Raise e => Raise e
           | Blocked => Blocked
           end)
      | (b', Ok _) => (b' :: rest, [], Raise TypeError)
      | (b', Raise e) => (b' :: rest, [], Raise e)
      | (b', Blocked) => (b' :: rest, [], Blocked)
      end
  end.

Definition VecEnv_recv : M VecEnv Gathered :=
  fun self =>
    if state self =? RECV then
      let self := set_state SEND self in
      let '(bs, ledger, res) := recv_loop (backends self) in
      let self := set_agent_keys ledger (set_backends bs self) in
      match res with
      | Ok (obs, rewards, dones, infos) =>
          match np.stack obs_shape obs with
          | Ok stacked => (self, Ok (stacked, rewards, dones, infos))
          | Raise e => (self, Raise e)
          | Blocked => (self, Blocked)
          end
      | Raise e => (self, Raise e)
      | Blocked => (self, Blocked)
      end
    else (self, Raise (AssertionError "Call reset before stepping")).

(** [[dict(zip(keys, atns)) for keys, atns in zip(keys_list, atns_list)]] *)
Definition action_maps (keys_list : list (list Key))
  (atns_list : list (list Act)) : list ActionMap :=
  zip_with (fun ks atns => dict_of (zip ks atns)) keys_list atns_list.

(** The loop of [send] over [zip(self.backends, self.agent_keys, actions)]. *)
Fixpoint send_loop (per_worker : Z) (bs : list B)
  (ledger : list (list (list Key))) (chunks : list (list Act))
  : list B * result unit :=
  match bs, ledger, chunks with
  | b :: bs', keys_list :: ledger', atns :: chunks' =>
      match np.split atns per_worker with
      | Ok atns_list =>
          match backend_send (action_maps keys_list atns_list) b with
          | (b', Ok _) =>
              let (rest, r) := send_loop per_worker bs' ledger' chunks' in
              (b' :: rest, r)
          | (b', Raise e) => (b' :: bs', Raise e)
          | (b', Blocked) => (b' :: bs', Blocked)
          end
      | Raise e => (bs, Raise e)
      | Blocked => (bs, Blocked)
      end
  | _, _, _ => (bs, Ok tt)
  end.

(** [actions] is the batch as a sequence of rows; [np.array] of a list
    of rows is that same sequence.  [env_id] is not used. *)
Definition VecEnv_send (actions : list Act) : M VecEnv unit :=
  fun self =>
    if state self =? SEND then
      let self := set_state RECV self in
      match np.split actions (num_workers self) with
      | Ok chunks =>
          match agent_keys self with
          | Some ledger =>
              let (bs, r) :=
                send_loop (envs_per_worker self) (backends self) ledger chunks in
              (set_backends bs self, r)
          | None => (self, Raise (AttributeError "agent_keys"))
          end
      | Raise e => (self, Raise e)
      | Blocked => (self, Blocked)
      end
    else (self, Raise (AssertionError "Call reset + recv before send")).

(** [reset] takes [seed] and calls [self.async_reset()] without it. *)
Definition VecEnv_reset (seed : option Z) : M VecEnv (list Obs) :=
  VecEnv_async_reset None;;
  let* r := VecEnv_recv in
  ret r.1.1.1.

Definition VecEnv_step (actions : list Act) : M VecEnv Gathered :=
  VecEnv_send actions;;
  VecEnv_recv.

End VecEnv.

(** *** class Multiprocessing(Backend)

    A request is the message [(name, args, kwargs)].  The messages
    modelled are those of [seed], [close], [async_reset_all] /
    [reset_all] and [send], and the ["terminate"] message the
    shared-memory worker looks for; the out-of-band [put_all], [get_all]
    and [profile_all] are left out. *)

Inductive Request : Type :=
| Req_seed (seed : Z)
| Req_close
| Req_reset_all (seed : option Z)
| Req_step (actions_lists : list ActionMap)
| Req_terminate.

Definition method_name (req : Request) : string :=
  match req with
  | Req_seed _ => "seed"
  | Req_close => "close"
  | Req_reset_all _ => "reset_all"
  | Req_step _ => "step"
  | Req_terminate => "terminate"
  end.

(** The methods of class [MultiEnv], and [getattr(self.envs, name)]. *)
Inductive MultiEnvMethod : Type :=
| m_seed | m_profile_all | m_put_all | m_get_all | m_reset_all | m_step.

Definition MultiEnv_getattr (name : string) : option MultiEnvMethod :=
  if String.eqb name "seed" then Some m_seed
  else if String.eqb name "profile_all" then Some m_profile_all
  else if String.eqb name "put_all" then Some m_put_all
  else if String.eqb name "get_all" then Some m_get_all
  else if String.eqb name "reset_all" then Some m_reset_all
  else if String.eqb name "step" then Some m_step
  else None.

(** The call of [func] on the arguments a modelled request carries. *)
Definition MultiEnv_call (m : MultiEnvMethod) (req : Request)
  : M MultiEnv Response :=
  fun envs =>
    match m, req with
    | m_seed, Req_seed seed => (MultiEnv_seed seed envs, Ok Resp_none)
    | m_reset_all, Req_reset_all seed =>
        let (envs', handles) := MultiEnv_reset_all seed envs in
        (envs', Ok (Resp_tuples handles))
    | m_step, Req_step actions_lists =>
        match MultiEnv_step actions_lists envs with
        | (envs', Ok returns) => (envs', Ok (Resp_tuples returns))
        | (envs', Raise e) => (envs', Raise e)
        | (envs', Blocked) => (envs', Blocked)
        end
    | _, _ => (envs, Raise TypeError)
    end.

(** A worker process with local state [W]: in its loop, dead of an
    uncaught exception, or out of the loop. *)
Inductive Process (W : Type) : Type :=
| Running (w : W)
| Died (w : W) (e : Exc)
| Exited (w : W).
Global Arguments Running {W} w.
Global Arguments Died {W} w e.
Global Arguments Exited {W} w.

Definition local {W} (p : Process W) : W :=
  match p with Running w | Died w _ | Exited w => w end.

Record Queues (W : Type) : Type := {
  request_queue : list Request;
  response_queue : list Response;
  process : Process W;
}.
Global Arguments request_queue {W} _.
Global Arguments response_queue {W} _.
Global Arguments process {W} _.

(** One turn of the loop of a worker: the next process state and the
    response it puts, if any. *)
Definition Handler (W : Type) : Type := Request -> W -> Process W * option Response.

(** The worker is sequential and the queues are first-in first-out, so
    what the parent reads does not depend on the interleaving: the
    worker is run over the pending requests when the parent waits. *)
Fixpoint run_worker {W} (handle : Handler W) (reqs : list Request)
  (p : Process W) (resps : list Response)
  : list Request * list Response * Process W :=
  match reqs, p with
  | req :: rest, Running w =>
      let (p', out) := handle req w in
      run_worker handle rest p'
        (resps ++ match out with Some r => [r] | None => [] end)
  | _, _ => (reqs, resps, p)
  end.

(** [self.request_queue.put(req)] *)
Definition put_request {W} (req : Request) : M (Queues W) unit :=
  fun self =>
    ({| request_queue := request_queue self ++ [req];
        response_queue := response_queue self;
        process := process self |}, Ok tt).

(** [self.response_queue.get()]: blocks until the worker has put a
    response, for ever when it will put none. *)
Definition get_response {W} (handle : Handler W) : M (Queues W) Response :=
  fun self =>
    let '(reqs, resps, p) :=
      run_worker handle (request_queue self) (process self)
        (response_queue self) in
    match resps with
    | r :: resps' =>
        ({| request_queue := reqs; response_queue := resps'; process := p |},
         Ok r)
    | [] =>
        ({| request_queue := reqs; response_queue := []; process := p |},
         Blocked)
    end.

Definition Multiprocessing : Type := Queues MultiEnv.

(** [_worker_process]: the body of [while True]. *)
Definition Multiprocessing_worker : Handler MultiEnv :=
  fun req envs =>
    match MultiEnv_getattr (method_name req) with
    | None => (Died envs (AttributeError (method_name req)), None)
    | Some func =>
        match MultiEnv_call func req envs with
        | (envs', Ok response) => (Running envs', Some response)
        | (envs', Raise e) => (Died envs' e, None)
        | (envs', Blocked) => (Running envs', None)
        end
    end.

Definition Multiprocessing_init (creator : unit -> E) (n : Z)
  : result Multiprocessing :=
  Ok {| request_queue := []; response_queue := [];
        process := Running (MultiEnv_init creator n) |}.

Definition Multiprocessing_seed (seed : Z) : M Multiprocessing unit :=
  put_request (Req_seed seed).

Definition Multiprocessing_close : M Multiprocessing unit :=
  put_request Req_close.

Definition Multiprocessing_async_reset_all (seed : option Z)
  : M Multiprocessing unit :=
  put_request (Req_reset_all seed).

Definition Multiprocessing_reset_all (seed : option Z)
  : M Multiprocessing Response :=
  put_request (Req_reset_all seed);;
  get_response Multiprocessing_worker.

Definition Multiprocessing_send (actions_lists : list ActionMap)
  : M Multiprocessing unit :=
  put_request (Req_step actions_lists).

Definition Multiprocessing_recv : M Multiprocessing Response :=
  get_response Multiprocessing_worker.

Definition Multiprocessing_step (actions_lists : list ActionMap)
  : M Multiprocessing Response :=
  Multiprocessing_send actions_lists;;
  Multiprocessing_recv.

#[export] Instance Multiprocessing_Backend : Backend Multiprocessing := {
  backend_init := Multiprocessing_init;
  backend_async_reset_all := Multiprocessing_async_reset_all;
  backend_send := Multiprocessing_send;
  backend_recv := Multiprocessing_recv;
  backend_close := Multiprocessing_close;
}.

(** *** class SharedMemoryMultiprocessing(Multiprocessing)

    A row of the buffer is opaque.  [obs_np_setitem i obs] is the
    assignment [obs_np[[i]] = obs] on a buffer: numpy's conversion of
    [obs] to a row of 32-bit floats. *)

Class SharedRows (Row : Type) := {
  new_row : list Z -> Row;
  obs_np_setitem : nat -> dict Key Obs -> M (list Row) unit;
}.

Section SharedMemory.
Context {Row : Type} `{!SharedRows Row}.

(** The worker's copy of [self]: its [MultiEnv], its attribute [obs_np]
    ([None] when the copy has no such attribute; [obs_shm] is assigned
    together with it), and whether it has run [self.obs_shm.close()]. *)
Record ShmLocal : Type := {
  shm_envs : MultiEnv;
  worker_obs_np : option (list Row);
  obs_shm_closed : bool;
}.

(** The object in the parent process: what it inherits from
    [Multiprocessing], and its view [obs_np] of the buffer. *)
Record SharedMemoryMultiprocessing : Type := {
  shm_queues :> Queues ShmLocal;
  obs_np : list Row;
}.

(** [for i, (obs, _, _, _) in enumerate(results): self.obs_np[[i]] = obs],
    in the worker: each turn looks the attribute up on the worker's copy
    of [self]. *)
Fixpoint store_rows (i : nat) (results : list StepTuple)
  : M (option (list Row)) unit :=
  match results with
  | [] => ret tt
  | (obs, _, _, _) :: rest =>
      (fun attr : option (list Row) =>
         match attr with
         | None => (None, Raise (AttributeError "obs_np"))
         | Some rows =>
             let (rows', r) := obs_np_setitem i obs rows in (Some rows', r)
         end);;
      store_rows (S i) rest
  end.

Definition SharedMemory_worker : Handler ShmLocal :=
  fun req w =>
    match req with
    | Req_terminate =>
        (* self.envs.close(); self.obs_shm.close(); break *)
        match MultiEnv_getattr "close" with
        | None => (Died w (AttributeError "close"), None)
        | Some _ =>
            match worker_obs_np w with
            | None => (Died w (AttributeError "obs_shm"), None)
            | Some _ =>
                (Exited {| shm_envs := shm_envs w;
                           worker_obs_np := worker_obs_np w;
                           obs_shm_closed := true |}, None)
            end
        end
    | Req_step actions_lists =>
        match MultiEnv_step actions_lists (shm_envs w) with
        | (envs', Ok results) =>
            match store_rows 0 results (worker_obs_np w) with
            | (rows, Ok _) =>
                (Running {| shm_envs := envs'; worker_obs_np := rows;
                            obs_shm_closed := obs_shm_closed w |},
                 Some (Resp_header (length results)
                         ((fun result => result.1.2) <$> results)))
            | (rows, Raise e) =>
                (Died {| shm_envs := envs'; worker_obs_np := rows;
                         obs_shm_closed := obs_shm_closed w |} e, None)
            | (rows, Blocked) =>
                (Running {| shm_envs := envs'; worker_obs_np := rows;
                            obs_shm_closed := obs_shm_closed w |}, None)
            end
        | (envs', Raise e) =>
            (Died {| shm_envs := envs'; worker_obs_np := worker_obs_np w;
                     obs_shm_closed := obs_shm_closed w |} e, None)
        | (envs', Blocked) =>
            (Running {| shm_envs := envs'; worker_obs_np := worker_obs_np w;
                        obs_shm_closed := obs_shm_closed w |}, None)
        end
    | _ =>
        match MultiEnv_getattr (method_name req) with
        | None => (Died w (AttributeError (method_name req)), None)
        | Some func =>
            let with_envs envs' :=
              {| shm_envs := envs'; worker_obs_np := worker_obs_np w;
                 obs_shm_closed := obs_shm_closed w |} in
            match MultiEnv_call func req (shm_envs w) with
            | (envs', Ok response) => (Running (with_envs envs'), Some response)
            | (envs', Raise e) => (Died (with_envs envs') e, None)
            | (envs', Blocked) => (Running (with_envs envs'), None)
            end
        end
    end.

(** The constructor takes a third argument.  [super().__init__] starts
    the worker first, so the worker's copy of [self] is taken before
    [obs_shape], [obs_shm] and [obs_np] are assigned and has none of
    them.  Then the parent computes the size in bytes in 64-bit
    arithmetic; [SharedMemory] refuses a negative size and a size of
    zero; and [np.ndarray] refuses a negative dimension, a byte count
    beyond 64 bits and a buffer shorter than the array.  The buffer has
    [n] rows.  A dimension that does not itself fit in 64 bits is
    refused as well, by whichever of these calls meets it first. *)
Definition SharedMemory_init (creator : unit -> E) (n : Z)
  (obs_shape : list Z) : result SharedMemoryMultiprocessing :=
  let shape := n :: obs_shape in
  let size := np.int64 (np.prod shape * 4) in
  let nbytes := foldr Z.mul 1 shape * 4 in
  if size <? 0 then Raise (ValueError "'size' must be a positive integer")
  else if size =? 0 then
    Raise (ValueError "'size' must be a positive number different from zero")
  else if existsb (fun d => d <? 0) shape then
    Raise (ValueError "negative dimensions are not allowed")
  else if 2 ^ 63 <=? nbytes then
    Raise (ValueError "array is too big; `arr.size * arr.dtype.itemsize` is larger than the maximum possible size.")
  else if size <? nbytes then Raise TypeError
  else
    Ok {| shm_queues :=
            {| request_queue := []; response_queue := [];
               process :=
                 Running {| shm_envs := MultiEnv_init creator n;
                            worker_obs_np := None;
                            obs_shm_closed := false |} |};
          obs_np := replicate (Z.to_nat n) (new_row obs_shape) |}.

(** A method inherited from [Multiprocessing] works on the queues and
    leaves the buffer alone. *)
Definition inherited {A} (m : M (Queues ShmLocal) A)
  : M SharedMemoryMultiprocessing A :=
  fun self =>
    let (q, r) := m (shm_queues self) in
    ({| shm_queues := q; obs_np := obs_np self |}, r).

(** Inherited from [Multiprocessing]. *)
Definition SharedMemory_close : M SharedMemoryMultiprocessing unit :=
  inherited (put_request Req_close).

Definition SharedMemory_async_reset_all (seed : option Z)
  : M SharedMemoryMultiprocessing unit :=
  inherited (put_request (Req_reset_all seed)).

Definition SharedMemory_send (actions_lists : list ActionMap)
  : M SharedMemoryMultiprocessing unit :=
  inherited (put_request (Req_step actions_lists)).

(** [num_new_obs, dones = self.response_queue.get()], then the view
    [self.obs_np[[:num_new_obs]]] of the parent.  A list unpacks into two
    names only when it has two elements, and a tuple of [reset_all] is
    no slice index; [None] does not unpack. *)
Definition SharedMemory_recv
  : M SharedMemoryMultiprocessing (list Row * list (dict Key bool)) :=
  let* response := inherited (get_response SharedMemory_worker) in
  match response with
  | Resp_header num_new_obs dones =>
      fun self => (self, Ok (take num_new_obs (obs_np self), dones))
  | Resp_tuples tuples =>
      if bool_decide (length tuples = 2%nat) then raise TypeError
      else if bool_decide (2 < length tuples)%nat then
        raise (ValueError "too many values to unpack (expected 2)")
      else raise (ValueError "not enough values to unpack (expected 2)")
  | Resp_none => raise TypeError
  end.

Definition SharedMemory_step (actions_lists : list ActionMap)
  : M SharedMemoryMultiprocessing (list Row * list (dict Key bool)) :=
  SharedMemory_send actions_lists;;
  SharedMemory_recv.

End SharedMemory.

(** *** class Ray(Backend)

    The actor holds the [MultiEnv] and runs the calls it is sent one
    after the other, in the order they were sent; the model runs a call
    when it is sent and keeps its outcome, a value or the exception the
    method raised, in the future.  [ray.get] of a future gives that
    outcome as often as it is asked.  [future] is [None] until a call
    assigns the attribute.  [ray.init] is not modelled. *)

Record Ray : Type := {
  remote_env : MultiEnv;
  future : option (result Response);
}.

Definition Ray_init (creator : unit -> E) (n : Z) : result Ray :=
  Ok {| remote_env := MultiEnv_init creator n; future := None |}.

(** [self.remote_env.step.remote(actions_lists)]: the actor after the
    call, and the future. *)
Definition Ray_remote_step (actions_lists : list ActionMap) (envs : MultiEnv)
  : MultiEnv * result Response :=
  match MultiEnv_step actions_lists envs with
  | (envs', Ok returns) => (envs', Ok (Resp_tuples returns))
  | (envs', Raise e) => (envs', Raise e)
  | (envs', Blocked) => (envs', Blocked)
  end.

Definition Ray_remote_reset_all (seed : option Z) (envs : MultiEnv)
  : MultiEnv * result Response :=
  let (envs', handles) := MultiEnv_reset_all seed envs in
  (envs', Ok (Resp_tuples handles)).

Definition Ray_seed (seed : Z) : M Ray unit :=
  fun self =>
    ({| remote_env := MultiEnv_seed seed (remote_env self);
        future := future self |}, Ok tt).

Definition Ray_async_reset_all (seed : option Z) : M Ray unit :=
  fun self =>
    let (envs', fut) := Ray_remote_reset_all seed (remote_env self) in
    ({| remote_env := envs'; future := Some fut |}, Ok tt).

Definition Ray_reset_all (seed : option Z) : M Ray Response :=
  fun self =>
    let (envs', fut) := Ray_remote_reset_all seed (remote_env self) in
    ({| remote_env := envs'; future := future self |}, fut).

Definition Ray_step (actions_lists : list ActionMap) : M Ray Response :=
  fun self =>
    let (envs', fut) := Ray_remote_step actions_lists (remote_env self) in
    ({| remote_env := envs'; future := future self |}, fut).

Definition Ray_send (actions_lists : list ActionMap) : M Ray unit :=
  fun self =>
    let (envs', fut) := Ray_remote_step actions_lists (remote_env self) in
    ({| remote_env := envs'; future := Some fut |}, Ok tt).

Definition Ray_recv : M Ray Response :=
  fun self =>
    match future self with
    | Some fut => (self, fut)
    | None => (self, Raise (AttributeError "future"))
    end.

(** [self.remote_env.close]: an actor handle has the methods of the
    class of its actor and raises [AttributeError] for any other name. *)
Definition Ray_close : M Ray unit :=
  match MultiEnv_getattr "close" with
  | Some _ => ret tt
  | None => raise (AttributeError "close")
  end.

#[export] Instance Ray_Backend : Backend Ray := {
  backend_init := Ray_init;
  backend_async_reset_all := Ray_async_reset_all;
  backend_send := Ray_send;
  backend_recv := Ray_recv;
  backend_close := Ray_close;
}.

End Model.

Arguments StepTuple : clear implicits.
Arguments ActionMap : clear implicits.
Arguments MultiEnv : clear implicits.
Arguments Response : clear implicits.
Arguments Serial : clear implicits.
Arguments Backend : clear implicits.
Arguments SharedRows : clear implicits.
Arguments Binding : clear implicits.
Arguments VecEnv : clear implicits.
Arguments Gathered : clear implicits.
Arguments Request : clear implicits.
Arguments Multiprocessing : clear implicits.
Arguments ShmLocal : clear implicits.
Arguments SharedMemoryMultiprocessing : clear implicits.
Arguments Ray : clear implicits.

(** ** A small environment to run the model on

    One agent, key [0].  The observation after [reset(seed)] is the seed
    ([-1] for [None]); a step adds the action to a running total, which is
    the next observation, and the episode is done once the total reaches
    ten. *)

Module Counter.

Record t : Type := { seeded : option Z; total : Z; finished : bool }.

Definition fresh : t := {| seeded := None; total := 0; finished := false |}.

Definition reset (seed : option Z) (c : t) : t * dict nat Z :=
  ({| seeded := seed; total := 0; finished := false |},
   [(0%nat, match seed with Some s => s | None => -1 end)]).

Definition step (actions : dict nat Z) (c : t)
  : t * (dict nat Z * dict nat Z * dict nat bool * dict nat unit) :=
  let a := foldr Z.add 0 (values actions) in
  let sum := total c + a in
  ({| seeded := seeded c; total := sum; finished := 10 <=? sum |},
   ([(0%nat, sum)], [(0%nat, a)], [(0%nat, 10 <=? sum)], [])).

#[global] Instance environment : Environment nat Z Z Z unit t := {
  env_reset := reset;
  env_step := step;
  env_done := finished;
  env_seed := fun z c =>
    {| seeded := Some z; total := total c; finished := finished c |};
  obs_shape := fun _ => [];
  rew_zero := 0;
}.

Definition bnd : Binding t := {| env_creator := fun _ => fresh; max_agents := 1 |}.

Definition serial : Type := Serial nat Z Z unit t.
Definition vecenv : Type := VecEnv nat t serial.

(** A buffer of integer rows, into which an observation map never
    converts. *)
#[global] Instance rows : SharedRows nat Z Z := {
  new_row := fun _ => 0;
  obs_np_setitem := fun _ _ => raise TypeError;
}.

(** Two workers of two environments each, on the [Serial] backend. *)
Definition built : list serial * result vecenv :=
  VecEnv_init bnd 2 (PyInt 2) [].

Definition vec : vecenv :=
  match built.2 with
  | Ok v => v
  | _ => {| binding := bnd; num_workers := 0; envs_per_worker := 0;
            state := RESET; backends := []; agent_keys := None |}
  end.

(** The same after [async_reset(seed=100)], and after the [recv] that
    follows. *)
Definition vec_reset : vecenv := (VecEnv_async_reset (Some 100) vec).1.
Definition vec_recvd : vecenv := (VecEnv_recv vec_reset).1.

(** The same after a [send] of three actions, which raises, and the
    [recv] a caller then makes, which raises in the first backend with
    the ledger emptied. *)
Definition stale : vecenv :=
  (VecEnv_recv (VecEnv_send [1; 2; 3] vec_recvd).1).1.

(** An environment whose episode is over. *)
Definition over : t := {| seeded := None; total := 12; finished := true |}.

End Counter.

(** The other backends on the counter environment: a queue backend at
    rest on two fresh environments, and an actor backend on two. *)

Module CounterRemote.

Definition queues : Type := Multiprocessing nat Z Z Z unit Counter.t.
Definition ray : Type := Ray nat Z Z unit Counter.t.

Definition pool : MultiEnv Counter.t := [Counter.fresh; Counter.fresh].

Definition at_rest : queues :=
  {| request_queue := []; response_queue := []; process := Running pool |}.

Definition actor : ray := {| remote_env := pool; future := None |}.

(** What [send] of three actions leaves of the orchestrator
    [Counter.vec_recvd]. *)
Definition after_bad_send : Counter.vecenv :=
  (VecEnv_send [1; 2; 3] Counter.vec_recvd).1.

(** The shared-memory backend on the counter environment, and an
    orchestrator on one actor backend. *)
Definition shared : Type :=
  SharedMemoryMultiprocessing nat Z Z Z unit Counter.t Z.


Definition on_actor : VecEnv nat Counter.t ray :=
  {| binding := Counter.bnd; num_workers := 1; envs_per_worker := 2;
     state := RESET; backends := [actor]; agent_keys := None |}.

End CounterRemote.

(** ** The calls of the two-phase protocol

    A caller's session is a list of calls on one orchestrator, each made
    on the object as the previous call left it, whether that call returned
    or raised. *)

Section Protocol.
Context {Key : Type} `{EqDecision Key} {Obs Act Rew InfoV E : Type}.
Context `{!Environment Key Obs Act Rew InfoV E}.
Context {B : Type} `{!Backend Key Obs Act Rew InfoV E B}.

Inductive Call : Type :=
| call_async_reset (seed : option Z)
| call_recv
| call_send (actions : list Act).

Definition perform (c : Call) : M (VecEnv Key E B) unit :=
  match c with
  | call_async_reset seed => VecEnv_async_reset seed
  | call_recv => VecEnv_recv;; ret tt
  | call_send actions => VecEnv_send actions
  end.

(** The state each method asserts, and the one it assigns. *)
Definition required_state (c : Call) : Z :=
  match c with
  | call_async_reset _ => RESET
  | call_recv => RECV
  | call_send _ => SEND
  end.

Definition assigned_state (c : Call) : Z :=
  match c with
  | call_async_reset _ => RECV
  | call_recv => SEND
  | call_send _ => RECV
  end.

(** For each call of a session, the state it found and how it ended. *)
Fixpoint run (cs : list Call) (self : VecEnv Key E B)
  : list (Z * result unit) :=
  match cs with
  | [] => []
  | c :: rest =>
      let (self', r) := perform c self in
      (state self, r) :: run rest self'
  end.

(** The order the specification allows, [async_reset] then [recv] then
    [send] and [recv] in turn, cut anywhere. *)
Fixpoint alternation (recv_next : bool) (cs : list Call) : bool :=
  match cs with
  | [] => true
  | call_recv :: rest => recv_next && alternation false rest
  | call_send _ :: rest => negb recv_next && alternation true rest
  | call_async_reset _ :: _ => false
  end.

Definition legal_order (cs : list Call) : bool :=
  match cs with
  | [] => true
  | call_async_reset _ :: rest => alternation true rest
  | _ => false
  end.

(** The rows of a batch meant for environment [e] of worker [w], when
    each worker has [per_worker] environments of [m] rows each. *)
Definition shard (actions : list Act) (per_worker m w e : nat) : list Act :=
  np.slice ((w * per_worker + e) * m) ((w * per_worker + e + 1) * m) actions.

(** For each worker of the ledger, the action map of each of its
    environments: its shard zipped onto its recorded keys. *)
Definition shard_plan (ledger : list (list (list Key))) (actions : list Act)
  (per_worker m : nat) : list (list (ActionMap Key Act)) :=
  imap (fun w keys_list =>
          action_maps keys_list
            ((fun e => shard actions per_worker m w e) <$> seq 0 per_worker))
       ledger.

(** Handing each backend its list of action maps, in order, until one
    does not return. *)
Fixpoint dispatch (plan : list (list (ActionMap Key Act))) (bs : list B)
  : list B * result unit :=
  match bs, plan with
  | b :: bs', atns_list :: plan' =>
      match backend_send atns_list b with
      | (b', Ok _) =>
          let (rest, r) := dispatch plan' bs' in (b' :: rest, r)
      | (b', Raise e) => (b' :: bs', Raise e)
      | (b', Blocked) => (b' :: bs', Blocked)
      end
  | _, _ => (bs, Ok tt)
  end.
End Protocol.

Arguments Call : clear implicits.

(** ** What a backend holds between two calls *)

Section Invariants.
Context {Key : Type} `{EqDecision Key} {Obs Act Rew InfoV E : Type}.
Context `{!Environment Key Obs Act Rew InfoV E}.

(** A [Serial] backend of [n] environments with its slot empty, and one
    with a result per environment waiting in the slot. *)
Definition Serial_idle (n : nat) (b : Serial Key Obs Rew InfoV E) : Prop :=
  async_handles b = None /\ length (envs b) = n.

Definition Serial_pending (n : nat) (b : Serial Key Obs Rew InfoV E) : Prop :=
  exists handles,
    async_handles b = Some handles /\ length handles = n /\
    length (envs b) = n.

(** A queue backend with both queues empty and its worker in the loop on
    the environments [envs]. *)
Definition Queues_quiet (q : Multiprocessing Key Obs Act Rew InfoV E)
  (envs : MultiEnv E) : Prop :=
  request_queue q = [] /\ response_queue q = [] /\ process q = Running envs.

(** A [Serial] backend and a queue backend that hold the same
    environments, both with nothing scheduled, or both with the same
    result to collect. *)
Definition agree_idle (b : Serial Key Obs Rew InfoV E)
  (q : Multiprocessing Key Obs Act Rew InfoV E) : Prop :=
  async_handles b = None /\ Queues_quiet q (envs b).

Definition agree_pending (b : Serial Key Obs Rew InfoV E)
  (q : Multiprocessing Key Obs Act Rew InfoV E) : Prop :=
  exists handles q',
    async_handles b = Some handles /\
    Multiprocessing_recv q = (q', Ok (Resp_tuples handles)) /\
    Queues_quiet q' (envs b).

(** A [Serial] backend and an actor backend that hold the same
    environments: with nothing to collect on the [Serial] side, or with
    the result in its slot being the value of the actor's future. *)
Definition Ray_agree_idle (b : Serial Key Obs Rew InfoV E)
  (r : Ray Key Obs Rew InfoV E) : Prop :=
  async_handles b = None /\ remote_env r = envs b.

Definition Ray_agree_pending (b : Serial Key Obs Rew InfoV E)
  (r : Ray Key Obs Rew InfoV E) : Prop :=
  exists handles,
    async_handles b = Some handles /\
    future r = Some (Ok (Resp_tuples handles)) /\
    remote_env r = envs b.

(** Two orchestrators, on two backend classes, that differ in their
    backends only, which are related one by one. *)
Definition orchestrators_agree {B1 B2 : Type} (related : B1 -> B2 -> Prop)
  (v1 : VecEnv Key E B1) (v2 : VecEnv Key E B2) : Prop :=
  binding v1 = binding v2 /\ num_workers v1 = num_workers v2 /\
  envs_per_worker v1 = envs_per_worker v2 /\ state v1 = state v2 /\
  agent_keys v1 = agent_keys v2 /\
  Forall2 related (backends v1) (backends v2).

(** The number of agent keys a ledger records. *)
Definition ledger_size (ledger : list (list (list Key))) : nat :=
  length (concat (concat ledger)).
End Invariants.

(** * Properties *)

(** ** Dictionaries and numpy *)

Section PyFacts.
Context {K : Type} `{EqDecision K}.

Lemma dict_get_set {V} (k k' : K) (v : V) (d : dict K V) :
  dict_get k (dict_set k' v d) = if decide (k = k') then Some v else dict_get k d.
Proof.
  induction d as [|[k0 v0] d IH]; simpl.
  - destruct (decide (k = k')); reflexivity.
  - destruct (decide (k' = k0)) as [->|Hne]; simpl.
    + destruct (decide (k = k0)); reflexivity.
    + destruct (decide (k = k0)) as [->|Hne'].
      * destruct (decide (k0 = k')); congruence.
      * exact IH.
Qed.

Lemma dict_get_foldl_set {V} (f : K -> V) (ks : list K) (d0 : dict K V) (k : K) :
  dict_get k (foldl (fun d kv => dict_set kv.1 kv.2 d) d0
                ((fun k => (k, f k)) <$> ks))
  = if decide (k ∈ ks) then Some (f k) else dict_get k d0.
Proof.
  revert d0. induction ks as [|k0 ks IH]; intros d0; simpl.
  - destruct (decide (k ∈ [])) as [Hin|_]; [inversion Hin | reflexivity].
  - rewrite IH, dict_get_set.
    destruct (decide (k ∈ ks)) as [Hin|Hnin].
    + rewrite decide_True by (right; exact Hin). reflexivity.
    + destruct (decide (k = k0)) as [->|Hne].
      * rewrite decide_True by left. reflexivity.
      * rewrite decide_False; [reflexivity|].
        intros Hin. apply elem_of_cons in Hin as [?|?]; contradiction.
Qed.

(** A comprehension over a dictionary has a value for its keys and for
    nothing else. *)
Lemma dict_get_comp {V W} (f : K -> W) (d : dict K V) (k : K) :
  dict_get k (dict_comp f d) = if decide (k ∈ keys d) then Some (f k) else None.
Proof. unfold dict_comp, dict_of. rewrite dict_get_foldl_set. reflexivity. Qed.
End PyFacts.

Section SplitFacts.
Context {A : Type}.
Implicit Types l : list A.

Lemma slice_length (st en : nat) l :
  (en <= length l)%nat -> length (np.slice st en l) = (en - st)%nat.
Proof. intros H. unfold np.slice. rewrite length_take, length_drop. lia. Qed.

(** A slice of a slice is a slice of the whole. *)
Lemma slice_slice (a b c d : nat) l :
  (d <= b - a)%nat ->
  np.slice c d (np.slice a b l) = np.slice (a + c) (a + d) l.
Proof.
  intros H. unfold np.slice.
  destruct (decide (c <= d)%nat) as [Hcd|Hcd].
  - rewrite (take_drop_commute _ (d - c)), take_take, Nat.min_l by lia.
    rewrite <- take_drop_commute, drop_drop. f_equal; lia.
  - replace (d - c)%nat with 0%nat by lia.
    replace (a + d - (a + c))%nat with 0%nat by lia. reflexivity.
Qed.

(** [np.split] into [k] sections of [m] rows each. *)
Lemma split_exact l (k m : nat) :
  (0 < k)%nat -> length l = (k * m)%nat ->
  np.split l (Z.of_nat k)
  = Ok ((fun i => np.slice (i * m) ((i + 1) * m) l) <$> seq 0 k).
Proof.
  intros Hk Hlen. unfold np.split.
  assert ((Z.of_nat k =? 0) = false) as -> by (apply Z.eqb_neq; lia).
  assert (Z.of_nat (length l) `mod` Z.of_nat k = 0) as Hmod.
  { rewrite Hlen, Nat2Z.inj_mul, Z.mul_comm. apply Z_mod_mult. }
  rewrite Hmod. simpl.
  assert ((Z.of_nat k <=? 0) = false) as -> by (apply Z.leb_gt; lia).
  rewrite Nat2Z.id.
  assert (Z.to_nat (Z.of_nat (length l) / Z.of_nat k) = m) as ->.
  { rewrite Hlen, Nat2Z.inj_mul, Z.mul_comm, Z_div_mult by lia. apply Nat2Z.id. }
  reflexivity.
Qed.

(** [np.split] raises unless the section count is positive and divides
    the length. *)
Lemma split_raises l (sections : Z) :
  ~ (0 < sections /\ Z.of_nat (length l) `mod` sections = 0) ->
  exists e, np.split l sections = Raise e.
Proof.
  intros H. unfold np.split.
  destruct (sections =? 0) eqn:E0; [eauto|].
  destruct (Z.of_nat (length l) `mod` sections =? 0) eqn:Em; simpl; [|eauto].
  destruct (sections <=? 0) eqn:Ele; [eauto|].
  exfalso. apply H. apply Z.eqb_eq in Em. apply Z.leb_gt in Ele. auto.
Qed.

Lemma split_ok_inv l (sections : Z) chunks :
  np.split l sections = Ok chunks ->
  0 < sections /\ Z.of_nat (length l) `mod` sections = 0 /\
  chunks = (fun i => np.slice (i * Z.to_nat (Z.of_nat (length l) / sections))
                       ((i + 1) * Z.to_nat (Z.of_nat (length l) / sections)) l)
             <$> seq 0 (Z.to_nat sections).
Proof.
  unfold np.split.
  destruct (sections =? 0) eqn:E0; [discriminate|].
  destruct (Z.of_nat (length l) `mod` sections =? 0) eqn:Em; simpl; [|discriminate].
  destruct (sections <=? 0) eqn:Ele; [discriminate|].
  intros [= <-]. apply Z.eqb_eq in Em. apply Z.leb_gt in Ele. auto.
Qed.
End SplitFacts.

(** ** The environment pool *)

Section Properties.
Context {Key : Type} `{EqDecision Key} {Obs Act Rew InfoV E : Type}.
Context `{!Environment Key Obs Act Rew InfoV E}.

Local Abbreviation tuple := (StepTuple Key Obs Rew InfoV).
Local Abbreviation actionmap := (ActionMap Key Act).
Local Abbreviation multienv := (MultiEnv E).

Lemma step_loop_lookup (envs : multienv) (actions_lists : list actionmap)
  (i : nat) (env : E) (actions : actionmap) :
  envs !! i = Some env -> actions_lists !! i = Some actions ->
  (step_loop envs actions_lists).1 !! i = Some (step_one env actions).1 /\
  (step_loop envs actions_lists).2 !! i = Some (step_one env actions).2.
Proof.
  revert actions_lists i.
  induction envs as [|e0 envs IH]; intros [|a0 rest] i He Ha;
    try discriminate.
  simpl. destruct (step_one e0 a0) as [e0' r0] eqn:E0.
  destruct (step_loop envs rest) as [envs' rs] eqn:El.
  destruct i as [|i]; simpl in *.
  - injection He as <-. injection Ha as <-. rewrite E0. auto.
  - specialize (IH rest i He Ha). rewrite El in IH. exact IH.
Qed.

Lemma MultiEnv_step_ok (envs : multienv) (actions_lists : list actionmap) :
  length envs = length actions_lists ->
  MultiEnv_step actions_lists envs
  = ((step_loop envs actions_lists).1, Ok (step_loop envs actions_lists).2).
Proof.
  intros Hlen. unfold MultiEnv_step.
  rewrite bool_decide_eq_true_2 by exact Hlen.
  destruct (step_loop envs actions_lists); reflexivity.
Qed.

Lemma step_one_done (env : E) (actions : actionmap) :
  env_done env = true ->
  step_one env actions
  = ((env_reset None env).1,
     ((env_reset None env).2,
      dict_comp (fun _ => rew_zero) (env_reset None env).2,
      dict_comp (fun _ => false) (env_reset None env).2, [])).
Proof.
  intros Hd. unfold step_one. rewrite Hd.
  destruct (env_reset None env); reflexivity.
Qed.


Lemma reset_all_length (seed : option Z) (envs : multienv) :
  length (MultiEnv_reset_all seed envs).1 = length envs /\
  length (MultiEnv_reset_all seed envs).2 = length envs.
Proof.
  revert seed. induction envs as [|e0 envs IH]; intros seed; [auto|].
  simpl. destruct (env_reset seed e0).
  match goal with |- context [MultiEnv_reset_all ?s envs] =>
    specialize (IH s); destruct (MultiEnv_reset_all s envs) end.
  simpl in *. lia.
Qed.

(** C2: [MultiEnv.step] resets an instance whose [done] flag is set and
    reports the reset observation with zero rewards, all-false dones and
    no infos, whatever action was submitted for it; any other instance
    is stepped with its action map. *)
Theorem MultiEnv_step_auto_reset (envs : multienv)
  (actions_lists : list actionmap) (i : nat) (env : E) (actions : actionmap) :
  length envs = length actions_lists ->
  envs !! i = Some env ->
  actions_lists !! i = Some actions ->
  exists envs' returns,
    MultiEnv_step actions_lists envs = (envs', Ok returns) /\
    if env_done env then
      let fresh := env_reset None env in
      exists rewards dones,
        envs' !! i = Some fresh.1 /\
        returns !! i = Some (fresh.2, rewards, dones, []) /\
        (forall k, dict_get k rewards
                   = if decide (k ∈ keys fresh.2) then Some rew_zero else None) /\
        (forall k, dict_get k dones
                   = if decide (k ∈ keys fresh.2) then Some false else None) /\
        (forall others : list actionmap,
            length envs = length others ->
            exists envs'' returns',
              MultiEnv_step others envs = (envs'', Ok returns') /\
              envs'' !! i = envs' !! i /\ returns' !! i = returns !! i)
    else
      envs' !! i = Some (env_step actions env).1 /\
      returns !! i = Some (env_step actions env).2.
Proof.
  intros Hlen He Ha.
  exists (step_loop envs actions_lists).1, (step_loop envs actions_lists).2.
  split; [apply MultiEnv_step_ok, Hlen|].
  destruct (step_loop_lookup _ _ _ _ _ He Ha) as [H1 H2].
  destruct (env_done env) eqn:Hd.
  - rewrite step_one_done in H1, H2 by exact Hd. simpl in H1, H2.
    eexists _, _. split; [exact H1|]. split; [exact H2|].
    split; [intros k; apply (dict_get_comp (fun _ => rew_zero))|].
    split; [intros k; apply (dict_get_comp (fun _ => false))|].
    intros others Hlen'.
    exists (step_loop envs others).1, (step_loop envs others).2.
    split; [apply MultiEnv_step_ok, Hlen'|].
    destruct (lookup_lt_is_Some_2 others i) as [a' Ha'].
    { rewrite <- Hlen'. eapply lookup_lt_Some, He. }
    destruct (step_loop_lookup _ _ _ _ _ He Ha') as [H3 H4].
    rewrite step_one_done in H3, H4 by exact Hd. simpl in H3, H4.
    rewrite H1, H2, H3, H4. auto.
  - unfold step_one in H1, H2. rewrite Hd in H1, H2. auto.
Qed.

End Properties.

(** ** The orchestrator *)

Section Orchestrator.
Context {Key : Type} `{EqDecision Key} {Obs Act Rew InfoV E : Type}.
Context `{!Environment Key Obs Act Rew InfoV E}.
Context {B : Type} `{!Backend Key Obs Act Rew InfoV E B}.

Local Abbreviation vecenv := (VecEnv Key E B).
Local Abbreviation calls := (list (Call Act)).

Lemma async_reset_loop_state (self : vecenv) seed :
  state (VecEnv_async_reset seed self).1
  = if state self =? RESET then RECV else state self.
Proof.
  unfold VecEnv_async_reset. destruct (state self =? RESET); [|reflexivity].
  destruct (async_reset_loop _ seed _). reflexivity.
Qed.

Lemma recv_state (self : vecenv) :
  state (VecEnv_recv self).1 = if state self =? RECV then SEND else state self.
Proof.
  unfold VecEnv_recv. destruct (state self =? RECV); [|reflexivity].
  destruct (recv_loop _) as [[bs ledger] [[[[o r] d] i]|e|]]; try reflexivity.
  destruct (np.stack obs_shape o); reflexivity.
Qed.

Lemma send_state (self : vecenv) actions :
  state (VecEnv_send actions self).1
  = if state self =? SEND then RECV else state self.
Proof.
  unfold VecEnv_send. destruct (state self =? SEND); [|reflexivity].
  destruct (np.split actions _); try reflexivity.
  simpl. destruct (agent_keys self); [|reflexivity].
  destruct (send_loop _ _ _ _). reflexivity.
Qed.

(** A call moves the state when it finds the one it asserts, whether or
    not its body then completes, and leaves it otherwise. *)
Lemma perform_state (c : Call Act) (self : vecenv) :
  state (perform c self).1
  = if state self =? required_state c then assigned_state c else state self.
Proof.
  destruct c; simpl.
  - apply async_reset_loop_state.
  - unfold bind. pose proof (recv_state self) as Hs.
    destruct (VecEnv_recv self) as [self' [g|e|]]; exact Hs.
  - apply send_state.
Qed.

(** In any other state the call raises the assertion of its first line
    and changes nothing. *)
Lemma perform_violation (c : Call Act) (self : vecenv) :
  state self <> required_state c ->
  exists msg, perform c self = (self, Raise (AssertionError msg)).
Proof.
  intros Hne. apply Z.eqb_neq in Hne.
  destruct c; simpl in *.
  - unfold VecEnv_async_reset. rewrite Hne. eauto.
  - unfold bind, VecEnv_recv. rewrite Hne. eauto.
  - unfold VecEnv_send. rewrite Hne. eauto.
Qed.

Lemma perform_ok_state (c : Call Act) (self self' : vecenv) r :
  perform c self = (self', Ok r) ->
  state self = required_state c /\ state self' = assigned_state c.
Proof.
  intros Hp.
  destruct (decide (state self = required_state c)) as [Heq|Hne].
  - split; [exact Heq|].
    pose proof (perform_state c self) as Hs. rewrite Hp in Hs. simpl in Hs.
    rewrite Heq, Z.eqb_refl in Hs. exact Hs.
  - destruct (perform_violation c self Hne) as [msg Hm]. congruence.
Qed.

Lemma run_accepted (cs : calls) :
  (forall self : vecenv, state self = RECV ->
     Forall (fun p => is_ok p.2 = true) (run cs self) -> alternation true cs = true) /\
  (forall self : vecenv, state self = SEND ->
     Forall (fun p => is_ok p.2 = true) (run cs self) -> alternation false cs = true).
Proof.
  induction cs as [|c rest [IHr IHs]]; [split; reflexivity|].
  split; intros self Hst Hall; cbn [run] in Hall;
    destruct (perform c self) as [self' r] eqn:Hp;
    inversion Hall as [|? ? Hok Hall']; subst; simpl in Hok;
    destruct r as [u| |]; try discriminate;
    apply perform_ok_state in Hp as [Hreq Hnext];
    destruct c; simpl in *; try (rewrite Hst in Hreq; discriminate).
  - eapply IHs; eauto.
  - eapply IHr; eauto.
Qed.

Lemma run_required (cs : calls) :
  (forall self : vecenv, state self = RECV -> alternation true cs = true ->
     Forall2 (fun c p => p.1 = required_state c) cs (run cs self)) /\
  (forall self : vecenv, state self = SEND -> alternation false cs = true ->
     Forall2 (fun c p => p.1 = required_state c) cs (run cs self)).
Proof.
  induction cs as [|c rest [IHr IHs]]; [split; intros; constructor|].
  split; intros self Hst Halt; destruct c; simpl in Halt; try discriminate;
    cbn [run];
    match goal with |- context [perform ?c self] =>
      pose proof (perform_state c self) as Hs;
      destruct (perform c self) as [self' r] end;
    simpl in Hs; rewrite Hst in Hs; simpl in Hs;
    (constructor; [exact Hst|]).
  - apply IHs; assumption.
  - apply IHr; assumption.
Qed.

(** C3: the state machine of the orchestrator.  [send] before any reset
    raises; a second [recv] with no [send] in between raises; a second
    [async_reset] raises; a call that returns was made in the state it
    asserts and leaves RECV, SEND and RECV respectively.  A session whose
    calls all return follows the order reset, recv, (send, recv)*, and
    in a session of that order every call finds the state it asserts. *)
Theorem VecEnv_call_order :
  (forall (self : vecenv) actions,
      state self = RESET ->
      VecEnv_send actions self
      = (self, Raise (AssertionError "Call reset + recv before send"))) /\
  (forall (self self' : vecenv) g,
      VecEnv_recv self = (self', Ok g) ->
      VecEnv_recv self'
      = (self', Raise (AssertionError "Call reset before stepping"))) /\
  (forall (self self' : vecenv) seed seed',
      VecEnv_async_reset seed self = (self', Ok tt) ->
      VecEnv_async_reset seed' self'
      = (self', Raise (AssertionError "Call reset only once on initialization"))) /\
  (forall (self self' : vecenv) seed,
      VecEnv_async_reset seed self = (self', Ok tt) ->
      state self = RESET /\ state self' = RECV) /\
  (forall (self self' : vecenv) g,
      VecEnv_recv self = (self', Ok g) ->
      state self = RECV /\ state self' = SEND) /\
  (forall (self self' : vecenv) actions,
      VecEnv_send actions self = (self', Ok tt) ->
      state self = SEND /\ state self' = RECV) /\
  (forall (self : vecenv) (cs : calls),
      state self = RESET ->
      Forall (fun p => is_ok p.2 = true) (run cs self) ->
      legal_order cs = true) /\
  (forall (self : vecenv) (cs : calls),
      state self = RESET ->
      legal_order cs = true ->
      Forall2 (fun c p => p.1 = required_state c) cs (run cs self)).
Proof.
  assert (Hrecv : forall (self self' : vecenv) g,
             VecEnv_recv self = (self', Ok g) ->
             state self = RECV /\ state self' = SEND).
  { intros self self' g Hr.
    apply (perform_ok_state call_recv self self' tt).
    simpl. unfold bind. rewrite Hr. reflexivity. }
  split; [|split; [|split; [|split; [|split; [|split; [|split]]]]]].
  - intros self actions Hst. unfold VecEnv_send. rewrite Hst. reflexivity.
  - intros self self' g Hr. apply Hrecv in Hr as [_ Hst].
    unfold VecEnv_recv. rewrite Hst. reflexivity.
  - intros self self' seed seed' Hr.
    apply (perform_ok_state (call_async_reset seed)) in Hr as [_ Hst].
    unfold VecEnv_async_reset. rewrite Hst. reflexivity.
  - intros self self' seed Hr.
    exact (perform_ok_state (call_async_reset seed) _ _ _ Hr).
  - exact Hrecv.
  - intros self self' actions Hr.
    exact (perform_ok_state (call_send actions) _ _ _ Hr).
  - intros self [|c rest] Hst Hall; [reflexivity|].
    cbn [run] in Hall. destruct (perform c self) as [self' r] eqn:Hp.
    inversion Hall as [|? ? Hok Hall']; subst. simpl in Hok.
    destruct r as [u| |]; try discriminate.
    apply perform_ok_state in Hp as [Hreq Hnext].
    destruct c; simpl in *; try (rewrite Hst in Hreq; discriminate).
    eapply (proj1 (run_accepted rest)); eauto.
  - intros self [|c rest] Hst Hlegal; [constructor|].
    destruct c; simpl in Hlegal; try discriminate.
    cbn [run perform].
    pose proof (perform_state (call_async_reset seed) self) as Hs.
    simpl in Hs.
    destruct (VecEnv_async_reset seed self) as [self' r].
    simpl in Hs; rewrite Hst in Hs; simpl in Hs.
    constructor; [exact Hst|].
    apply (proj1 (run_required rest)); assumption.
Qed.

Lemma create_backends_ok (creator : unit -> E) (n : Z) (b : B) (count : nat)
  (world : list B) :
  backend_init creator n = Ok b ->
  create_backends creator n count world
  = (world ++ replicate count b, Ok (replicate count b)).
Proof.
  intros Hb. revert world.
  induction count as [|count IH]; intros world; simpl.
  - unfold ret. rewrite app_nil_r. reflexivity.
  - unfold bind at 1. rewrite Hb. unfold bind at 1. rewrite IH.
    unfold ret. rewrite <- app_assoc. reflexivity.
Qed.

(** C9: [VecEnv.__init__] raises, with no backend instantiated, unless
    [envs_per_worker] is an [int] above zero; with such a value, and a
    backend class whose constructor returns, it instantiates one backend
    per worker and starts in state RESET. *)
Theorem VecEnv_init_validation (bnd : Binding E) (workers : Z)
  (per_worker : PyVal) (world : list B) :
  ((forall n, per_worker = PyInt n -> n <= 0) ->
   exists e, VecEnv_init bnd workers per_worker world = (world, Raise e)) /\
  (forall n b,
      per_worker = PyInt n -> 0 < n ->
      backend_init (env_creator bnd) n = Ok b ->
      exists self : vecenv,
        VecEnv_init bnd workers per_worker world
        = (world ++ backends self, Ok self) /\
        backends self = replicate (Z.to_nat workers) b /\
        (0 <= workers -> Z.of_nat (length (backends self)) = workers) /\
        num_workers self = workers /\ envs_per_worker self = n /\
        state self = RESET).
Proof.
  split.
  - intros Hbad. unfold VecEnv_init, bind, lift, assert, raise, ret.
    destruct per_worker as [n|[|]|f|s|]; simpl; eauto.
    + specialize (Hbad n eq_refl).
      assert ((0 <? n) = false) as -> by (apply Z.ltb_ge; lia). eauto.
    + destruct (SFltb _ f); eauto.
  - intros n b -> Hn Hb. unfold VecEnv_init, bind, lift, assert, raise, ret.
    simpl. assert ((0 <? n) = true) as -> by (apply Z.ltb_lt; lia).
    pose proof (create_backends_ok (env_creator bnd) n b (Z.to_nat workers) world Hb) as Hc.
    rewrite Hc.
    exists {| binding := bnd; num_workers := workers; envs_per_worker := n;
              state := RESET; backends := replicate (Z.to_nat workers) b;
              agent_keys := None |}.
    split; [reflexivity|]. simpl.
    split; [reflexivity|]. split; [|auto].
    intros Hw. rewrite length_replicate. lia.
Qed.




(** *** Sharding an action batch *)

Lemma send_loop_dispatch (per_worker m : nat) (bs : list B)
  (ledger : list (list (list Key))) (chunks : list (list Act)) :
  (0 < per_worker)%nat ->
  Forall (fun ch => length ch = (per_worker * m)%nat) chunks ->
  send_loop (Z.of_nat per_worker) bs ledger chunks
  = dispatch
      (zip_with
         (fun keys_list ch =>
            action_maps keys_list
              ((fun e => np.slice (e * m) ((e + 1) * m) ch) <$> seq 0 per_worker))
         ledger chunks)
      bs.
Proof.
  intros Hpos. revert ledger chunks.
  induction bs as [|b bs IH]; intros [|kl ledger] [|ch chunks] Hall;
    try reflexivity.
  inversion Hall as [|? ? Hch Hall']; subst.
  simpl. rewrite (split_exact ch per_worker m Hpos Hch).
  destruct (backend_send _ b) as [b' [[]|e|]]; try reflexivity.
  rewrite (IH ledger chunks Hall'). reflexivity.
Qed.

Lemma shard_plan_chunks (ledger : list (list (list Key))) (actions : list Act)
  (workers per_worker m : nat) :
  length ledger = workers ->
  zip_with
    (fun keys_list ch =>
       action_maps keys_list
         ((fun e => np.slice (e * m) ((e + 1) * m) ch) <$> seq 0 per_worker))
    ledger
    ((fun w => np.slice (w * (per_worker * m)) ((w + 1) * (per_worker * m)) actions)
       <$> seq 0 workers)
  = shard_plan ledger actions per_worker m.
Proof.
  intros Hlen. apply list_eq. intros w. unfold shard_plan.
  rewrite lookup_zip_with, list_lookup_imap, list_lookup_fmap.
  destruct (ledger !! w) as [kl|] eqn:Hkl; [|reflexivity]. simpl.
  rewrite lookup_seq_lt by (rewrite <- Hlen; eapply lookup_lt_Some, Hkl).
  simpl. do 2 f_equal.
  apply list_eq. intros e. rewrite !list_lookup_fmap.
  destruct (seq 0 per_worker !! e) as [e'|] eqn:He; [|reflexivity]. simpl.
  apply lookup_seq in He as [-> He]. simpl. f_equal. unfold shard.
  rewrite slice_slice by nia. f_equal; lia.
Qed.

Lemma shard_plan_lookup (ledger : list (list (list Key))) (actions : list Act)
  (per_worker m w e : nat) keys_list ks :
  ledger !! w = Some keys_list -> keys_list !! e = Some ks ->
  (e < per_worker)%nat ->
  shard_plan ledger actions per_worker m !! w ≫= (.!! e)
  = Some (dict_of (zip ks (shard actions per_worker m w e))).
Proof.
  intros Hw He Hlt. unfold shard_plan. rewrite list_lookup_imap, Hw. simpl.
  unfold action_maps. rewrite lookup_zip_with, He. simpl.
  rewrite list_lookup_fmap, lookup_seq_lt by exact Hlt. reflexivity.
Qed.

Lemma shard_length (actions : list Act) (workers per_worker m w e : nat) :
  length actions = (workers * (per_worker * m))%nat ->
  (w < workers)%nat -> (e < per_worker)%nat ->
  length (shard actions per_worker m w e) = m.
Proof.
  intros Hlen Hw He. unfold shard. rewrite slice_length; [nia|].
  rewrite Hlen.
  assert (w * per_worker + e + 1 <= workers * per_worker)%nat as Hle by nia.
  apply (Nat.mul_le_mono_r _ _ m) in Hle. lia.
Qed.

(** [send] on a batch that divides evenly is the dispatch of the shard
    plan. *)
Lemma send_is_dispatch (self : vecenv) (actions : list Act)
  (ledger : list (list (list Key))) (workers per_worker m : nat) :
  state self = SEND ->
  agent_keys self = Some ledger ->
  length ledger = workers ->
  num_workers self = Z.of_nat workers ->
  envs_per_worker self = Z.of_nat per_worker ->
  (0 < workers)%nat -> (0 < per_worker)%nat ->
  length actions = (workers * (per_worker * m))%nat ->
  VecEnv_send actions self
  = (let (bs, r) :=
       dispatch (shard_plan ledger actions per_worker m) (backends self) in
     (set_backends bs (set_state RECV self), r)).
Proof.
  intros Hst Hledger Hll Hw He Hwpos Hepos Hlen.
  unfold VecEnv_send. rewrite Hst. simpl.
  rewrite Hw, (split_exact actions workers (per_worker * m) Hwpos Hlen).
  rewrite Hledger, He, send_loop_dispatch with (m := m); [|exact Hepos|].
  - rewrite (shard_plan_chunks ledger actions workers per_worker m Hll).
    reflexivity.
  - apply Forall_fmap, Forall_forall. intros w Hin. simpl.
    apply in_seq in Hin. rewrite slice_length; [nia|].
    rewrite Hlen. apply Nat.mul_le_mono_r. lia.
Qed.

Lemma shardable_nat (n W P : Z) :
  0 <= n -> 0 < W -> n `mod` W = 0 -> 0 < P -> (n / W) `mod` P = 0 ->
  Z.to_nat n
  = (Z.to_nat W * (Z.to_nat P * Z.to_nat (n / (W * P))))%nat.
Proof.
  intros Hn HW HmW HP HmP.
  assert (n = W * (n / W)) as H1 by (apply Z_div_exact_full_2; lia).
  assert (n / W = P * (n / W / P)) as H2 by (apply Z_div_exact_full_2; lia).
  rewrite Z.div_div in H2 by lia.
  assert (0 <= n / (W * P)) by (apply Z.div_pos; nia).
  apply Nat2Z.inj. rewrite !Nat2Z.inj_mul, !Z2Nat.id by lia.
  rewrite <- H2. exact H1.
Qed.

Lemma set_backends_same (self : vecenv) :
  set_backends (backends self) (set_state RECV self) = set_state RECV self.
Proof. reflexivity. Qed.

(** With one ledger entry per backend, [send] raises and hands nothing to
    any backend unless the batch divides evenly, and is the dispatch of
    the shard plan when it does. *)
Lemma send_sharding (self : vecenv) (actions : list Act)
  (ledger : list (list (list Key))) :
  state self = SEND ->
  agent_keys self = Some ledger ->
  length ledger = length (backends self) ->
  length (backends self) = Z.to_nat (num_workers self) ->
  let n := Z.of_nat (length actions) in
  let W := num_workers self in
  let P := envs_per_worker self in
  (~ (0 < W /\ n `mod` W = 0 /\ 0 < P /\ (n / W) `mod` P = 0) ->
   exists e, VecEnv_send actions self = (set_state RECV self, Raise e)) /\
  (0 < W -> n `mod` W = 0 -> 0 < P -> (n / W) `mod` P = 0 ->
   let m := Z.to_nat (n / (W * P)) in
   let plan := shard_plan ledger actions (Z.to_nat P) m in
   VecEnv_send actions self
   = (let (bs, r) := dispatch plan (backends self) in
      (set_backends bs (set_state RECV self), r)) /\
   forall (w e : nat) keys_list ks,
     ledger !! w = Some keys_list -> keys_list !! e = Some ks ->
     (e < Z.to_nat P)%nat ->
     length (shard actions (Z.to_nat P) m w e) = m /\
     plan !! w ≫= (.!! e)
     = Some (dict_of (zip ks (shard actions (Z.to_nat P) m w e)))).
Proof.
  intros Hst Hledger Hll Hbs n W P. split.
  - intros Hbad. unfold VecEnv_send. rewrite Hst. simpl. fold W P.
    destruct (np.split actions W) as [chunks|e|] eqn:Hsplit.
    2: { eauto. }
    2: { unfold np.split in Hsplit. repeat case_match; discriminate. }
    apply split_ok_inv in Hsplit as (HW & HmW & ->). fold n in HmW |- *.
    rewrite Hledger.
    assert (Hpos : (0 < Z.to_nat W)%nat) by lia.
    destruct (backends self) as [|b bs] eqn:Hb; [simpl in Hbs; lia|].
    destruct ledger as [|kl ledger']; [discriminate|].
    destruct (Z.to_nat W) as [|k] eqn:HWn; [lia|].
    cbn [seq fmap list_fmap send_loop].
    set (ch := np.slice _ _ actions).
    assert (Hch : Z.of_nat (length ch) = n / W).
    { subst ch. rewrite slice_length.
      - assert (0 <= n / W) by (apply Z.div_pos; lia). lia.
      - assert (n = W * (n / W)) by (apply Z_div_exact_full_2; lia).
        assert (0 <= n / W) by (apply Z.div_pos; lia).
        apply Nat2Z.inj_le. fold n.
        rewrite Nat2Z.inj_mul, Z2Nat.id by lia. nia. }
    destruct (split_raises ch P) as [e He].
    { rewrite Hch. intros [? ?]. apply Hbad. auto. }
    rewrite He. exists e. rewrite <- Hb. rewrite set_backends_same. reflexivity.
  - intros HW HmW HP HmP m plan.
    assert (Hlen : length actions
                   = (Z.to_nat W * (Z.to_nat P * m))%nat).
    { rewrite <- (Nat2Z.id (length actions)). fold n.
      apply shardable_nat; auto. lia. }
    split.
    + apply send_is_dispatch with (workers := Z.to_nat W); auto; try lia.
    + intros w e keys_list ks Hw He Hlt. split.
      * apply shard_length with (workers := Z.to_nat W); auto.
        unfold W. rewrite <- Hbs, <- Hll. eapply lookup_lt_Some, Hw.
      * apply shard_plan_lookup with (keys_list := keys_list); auto.
Qed.

(** *** Gathering the observations *)

Local Abbreviation one_key :=
  (fun t : StepTuple Key Obs Rew InfoV => length t.1.1.1 = 1%nat).

Lemma gather_envs_one_key (tuples : list (StepTuple Key Obs Rew InfoV)) :
  Forall one_key tuples ->
  length (gather_envs tuples).1 = length tuples /\
  length (gather_envs tuples).2.1.1.1 = length tuples /\
  forall e t,
    tuples !! e = Some t ->
    exists k x, t.1.1.1 = [(k, x)] /\
                (gather_envs tuples).2.1.1.1 !! e = Some x /\
                (gather_envs tuples).1 !! e = Some [k].
Proof.
  induction tuples as [|[[[o r] d] i] tuples IH]; intros Hall.
  - repeat split; intros; discriminate.
  - inversion Hall as [|? ? Ho Hall']; subst. simpl in Ho.
    destruct (IH Hall') as (Hk & Hl & Hrows). simpl.
    destruct (gather_envs tuples) as [a_keys [[[obs rws] dns] infos]].
    simpl in *.
    destruct o as [|[k x] [|? ?]]; try discriminate. simpl.
    repeat split; try lia.
    intros [|e] t Ht; simpl in *.
    + injection Ht as <-. simpl. eauto.
    + apply Hrows, Ht.
Qed.

Lemma recv_loop_rows (per_worker : nat) (bs bs' : list B) ledger obs rws dns infos :
  recv_loop bs = (bs', ledger, Ok (obs, rws, dns, infos)) ->
  (forall b b' tuples,
      b ∈ bs -> backend_recv b = (b', Ok (Resp_tuples tuples)) ->
      length tuples = per_worker /\ Forall one_key tuples) ->
  length ledger = length bs /\ length bs' = length bs /\
  length obs = (length bs * per_worker)%nat /\
  forall (w e : nat) b,
    bs !! w = Some b -> (e < per_worker)%nat ->
    exists b' tuples k x r d i,
      backend_recv b = (b', Ok (Resp_tuples tuples)) /\
      bs' !! w = Some b' /\
      tuples !! e = Some ([(k, x)], r, d, i) /\
      obs !! (w * per_worker + e)%nat = Some x /\
      ledger !! w ≫= (.!! e) = Some [k].
Proof.
  revert bs' ledger obs rws dns infos.
  induction bs as [|b0 bs IH]; intros bs' ledger obs rws dns infos Hloop Hone.
  - injection Hloop as <- <- <- <- <- <-.
    repeat split; intros; discriminate.
  - simpl in Hloop.
    destruct (backend_recv b0) as [b0' [[tuples| |]|e|]] eqn:Hb0;
      try discriminate.
    destruct (Hone b0 b0' tuples ltac:(left) Hb0) as [Hlen Hkeys].
    destruct (gather_envs_one_key tuples Hkeys) as (Hk & Hl & Hrows).
    destruct (gather_envs tuples) as [a_keys [[[o r] d] i]]. simpl in *.
    destruct (recv_loop bs) as [[rest' ledger'] res] eqn:Hrest.
    destruct res as [[[[obs' rws'] dns'] infos']|e|]; try discriminate.
    injection Hloop as <- <- <- <- <- <-.
    destruct (IH _ _ _ _ _ _ eq_refl) as (Hll & Hlb & Hlo & Hrec).
    { intros b b' ts Hin. apply Hone. right. exact Hin. }
    simpl. rewrite length_app. repeat split; try lia.
    intros [|w] e b Hb He; simpl in *.
    + injection Hb as <-.
      destruct (lookup_lt_is_Some_2 tuples e ltac:(lia)) as [[[[to tr] td] ti] Ht].
      destruct (Hrows e _ Ht) as (k & x & Hto & Hx & Hkk). simpl in Hto. subst to.
      exists b0', tuples, k, x, tr, td, ti.
      repeat split; auto.
      rewrite lookup_app_l by lia. exact Hx.
    + destruct (Hrec w e b Hb He) as (b' & ts & k & x & tr & td & ti & H1 & H2 & H3 & H4 & H5).
      exists b', ts, k, x, tr, td, ti. repeat split; auto.
      rewrite lookup_app_r by lia.
      replace (per_worker + w * per_worker + e - length o)%nat
        with (w * per_worker + e)%nat by lia.
      exact H4.
Qed.

Lemma recv_ok_inv (self self' : vecenv) g :
  VecEnv_recv self = (self', Ok g) ->
  exists bs ledger rws dns infos,
    recv_loop (backends self) = (bs, ledger, Ok (g.1.1.1, rws, dns, infos)) /\
    g.1.1.1 <> [] /\
    self' = set_agent_keys ledger (set_backends bs (set_state SEND self)).
Proof.
  unfold VecEnv_recv. destruct (state self =? RECV); [|discriminate].
  simpl. destruct (recv_loop (backends self)) as [[bs ledger] res].
  destruct res as [[[[obs rws] dns] infos]|e|]; try discriminate.
  unfold np.stack. destruct obs as [|o obs]; [discriminate|].
  destruct (forallb _ (o :: obs)); [|discriminate].
  intros [= <- <-]. simpl. eexists _, _, _, _, _. repeat split. discriminate.
Qed.

Lemma recv_loop_lengths (bs bs' : list B) ledger g :
  recv_loop bs = (bs', ledger, Ok g) ->
  length bs' = length bs /\ length ledger = length bs.
Proof.
  revert bs' ledger g.
  induction bs as [|b0 bs IH]; intros bs' ledger g Hloop.
  - injection Hloop as <- <- _. auto.
  - simpl in Hloop.
    destruct (backend_recv b0) as [b0' [[tuples| |]|e|]]; try discriminate.
    destruct (gather_envs tuples) as [a_keys [[[o r] d] i]].
    destruct (recv_loop bs) as [[rest' ledger'] res].
    destruct res as [[[[obs' rws'] dns'] infos']|e|]; try discriminate.
    injection Hloop as <- <- _.
    destruct (IH _ _ _ eq_refl) as [Hb Hl]. simpl. lia.
Qed.

(** C10: after a [recv] that returned, the orchestrator is in state SEND
    with a ledger, and [send] raises and hands nothing to any backend
    unless the batch divides into [num_workers] equal chunks, each into
    [envs_per_worker] equal sub-chunks; when it does, the backends are
    handed, in order, the maps that zip each environment's sub-chunk of
    [length / (num_workers * envs_per_worker)] actions onto its recorded
    keys. *)
Theorem VecEnv_send_sharding (before self : vecenv) g (actions : list Act) :
  length (backends before) = Z.to_nat (num_workers before) ->
  VecEnv_recv before = (self, Ok g) ->
  let n := Z.of_nat (length actions) in
  let W := num_workers self in
  let P := envs_per_worker self in
  exists ledger,
    state self = SEND /\ agent_keys self = Some ledger /\
    (~ (0 < W /\ n `mod` W = 0 /\ 0 < P /\ (n / W) `mod` P = 0) ->
     exists e, VecEnv_send actions self = (set_state RECV self, Raise e)) /\
    (0 < W -> n `mod` W = 0 -> 0 < P -> (n / W) `mod` P = 0 ->
     let m := Z.to_nat (n / (W * P)) in
     let plan := shard_plan ledger actions (Z.to_nat P) m in
     VecEnv_send actions self
     = (let (bs, r) := dispatch plan (backends self) in
        (set_backends bs (set_state RECV self), r)) /\
     forall (w e : nat) keys_list ks,
       ledger !! w = Some keys_list -> keys_list !! e = Some ks ->
       (e < Z.to_nat P)%nat ->
       length (shard actions (Z.to_nat P) m w e) = m /\
       plan !! w ≫= (.!! e)
       = Some (dict_of (zip ks (shard actions (Z.to_nat P) m w e)))).
Proof.
  intros Hbs Hrecv n W P.
  destruct (recv_ok_inv _ _ _ Hrecv) as (bs & ledger & rws & dns & infs & Hloop & _ & Hself).
  destruct (recv_loop_lengths _ _ _ _ Hloop) as [Hlb Hll].
  exists ledger.
  assert (Hst : state self = SEND) by (subst self; reflexivity).
  assert (Hk : agent_keys self = Some ledger) by (subst self; reflexivity).
  assert (H1 : length ledger = length (backends self))
    by (subst self; simpl; lia).
  assert (H2 : length (backends self) = Z.to_nat (num_workers self))
    by (subst self; simpl; lia).
  split; [exact Hst|]. split; [exact Hk|].
  exact (send_sharding self actions ledger Hst Hk H1 H2).
Qed.

Lemma shard_single (actions : list Act) (per_worker w e : nat) a :
  actions !! (w * per_worker + e)%nat = Some a ->
  shard actions per_worker 1 w e = [a].
Proof.
  intros Ha. unfold shard, np.slice.
  replace ((w * per_worker + e) * 1)%nat with (w * per_worker + e)%nat by lia.
  rewrite (drop_S _ _ _ Ha).
  replace ((w * per_worker + e + 1) * 1 - (w * per_worker + e))%nat with 1%nat by lia.
  reflexivity.
Qed.

(** C1: with one agent key per environment, row [i] of the batch that
    [recv] stacks is the observation of environment [i mod E] of worker
    [i div E], and [send] on a batch of that length hands that
    environment the map from its recorded key to entry [i]. *)
Theorem VecEnv_ordering (self self1 : vecenv) obs rewards dones infos :
  length (backends self) = Z.to_nat (num_workers self) ->
  0 < envs_per_worker self ->
  (forall b b' tuples,
      b ∈ backends self -> backend_recv b = (b', Ok (Resp_tuples tuples)) ->
      length tuples = Z.to_nat (envs_per_worker self) /\
      Forall (fun t => length t.1.1.1 = 1%nat) tuples) ->
  VecEnv_recv self = (self1, Ok (obs, rewards, dones, infos)) ->
  let P := Z.to_nat (envs_per_worker self) in
  let W := Z.to_nat (num_workers self) in
  exists ledger,
    agent_keys self1 = Some ledger /\
    length obs = (W * P)%nat /\
    (forall i : nat,
        (i < W * P)%nat ->
        exists b b' tuples k x r d inf,
          backends self !! (i / P)%nat = Some b /\
          backend_recv b = (b', Ok (Resp_tuples tuples)) /\
          tuples !! (i mod P)%nat = Some ([(k, x)], r, d, inf) /\
          obs !! i = Some x /\
          ledger !! (i / P)%nat ≫= (.!! (i mod P)%nat) = Some [k]) /\
    (forall actions : list Act,
        length actions = (W * P)%nat ->
        VecEnv_send actions self1
        = (let (bs, r) :=
             dispatch (shard_plan ledger actions P 1) (backends self1) in
           (set_backends bs (set_state RECV self1), r)) /\
        forall (i : nat) k a,
          ledger !! (i / P)%nat ≫= (.!! (i mod P)%nat) = Some [k] ->
          actions !! i = Some a ->
          shard_plan ledger actions P 1 !! (i / P)%nat ≫= (.!! (i mod P)%nat)
          = Some [(k, a)]).
Proof.
  intros Hbs HP Hone Hrecv P W.
  destruct (recv_ok_inv _ _ _ Hrecv) as (bs & ledger & rws & dns & infs & Hloop & Hne & ->).
  simpl in Hloop, Hne.
  destruct (recv_loop_rows P _ _ _ _ _ _ _ Hloop Hone) as (Hll & Hlb & Hlo & Hrows).
  rewrite Hbs in Hll, Hlb, Hlo. fold W in Hll, Hlb, Hlo.
  assert (HPpos : (0 < P)%nat) by (unfold P; lia).
  assert (HWpos : (0 < W)%nat).
  { destruct W; [|lia]. destruct obs; [congruence|discriminate]. }
  exists ledger. split; [reflexivity|]. split; [exact Hlo|]. split.
  - intros i Hi.
    assert (Hdiv : (i / P < W)%nat) by (apply Nat.Div0.div_lt_upper_bound; lia).
    assert (Hmod : (i mod P < P)%nat) by (apply Nat.mod_upper_bound; lia).
    destruct (lookup_lt_is_Some_2 (backends self) (i / P)%nat ltac:(lia)) as [b Hb].
    destruct (Hrows _ _ b Hb Hmod) as (b' & ts & k & x & r & d & inf & H1 & H2 & H3 & H4 & H5).
    exists b, b', ts, k, x, r, d, inf. repeat split; auto.
    rewrite <- H4. f_equal.
    rewrite (Nat.div_mod_eq i P) at 1. lia.
  - intros actions Hlen. split.
    + apply send_is_dispatch with (workers := W); simpl; auto; try lia.
    + intros i k a Hk Ha.
      destruct (ledger !! (i / P)%nat) as [kl|] eqn:Hkl; [|discriminate].
      simpl in Hk.
      assert (Hmod : (i mod P < P)%nat) by (apply Nat.mod_upper_bound; lia).
      rewrite (shard_plan_lookup _ _ _ _ _ _ kl [k] Hkl Hk Hmod).
      rewrite (shard_single _ _ _ _ a); [reflexivity|].
      rewrite <- Ha. f_equal.
      rewrite (Nat.div_mod_eq i P) at 3. lia.
Qed.

End Orchestrator.

(** ** The seeds of [async_reset] *)

Section Seeds.
Context {Key : Type} `{EqDecision Key} {Obs Act Rew InfoV E : Type}.
Context `{!Environment Key Obs Act Rew InfoV E}.

Local Abbreviation serial := (Serial Key Obs Rew InfoV E).
Local Abbreviation queues := (Multiprocessing Key Obs Act Rew InfoV E).
Local Abbreviation ray := (Ray Key Obs Rew InfoV E).


End Seeds.

(** ** The backends *)

Section Backends.
Context {Key : Type} `{EqDecision Key} {Obs Act Rew InfoV E : Type}.
Context `{!Environment Key Obs Act Rew InfoV E}.

Local Abbreviation serial := (Serial Key Obs Rew InfoV E).
Local Abbreviation queues := (Multiprocessing Key Obs Act Rew InfoV E).

Lemma close_loop_Multiprocessing (bs : list queues) :
  exists bs', close_loop bs = (bs', Ok tt).
Proof.
  induction bs as [|b bs [bs' IH]]; simpl; [eauto|].
  rewrite IH. eauto.
Qed.

(** C8, as the code has it: an orchestrator built on [Serial] with at
    least one worker raises [NotImplementedError] on [close()], the
    object unchanged, where one built on [Multiprocessing] returns. *)
Theorem VecEnv_close_fresh (bnd : Binding E) (workers n : Z) :
  0 < workers -> 0 < n ->
  (exists self : VecEnv Key E serial,
      VecEnv_init bnd workers (PyInt n) [] = (backends self, Ok self) /\
      VecEnv_close self = (self, Raise NotImplementedError)) /\
  (exists self self' : VecEnv Key E queues,
      VecEnv_init bnd workers (PyInt n) [] = (backends self, Ok self) /\
      VecEnv_close self = (self', Ok tt)).
Proof.
  intros Hw Hn. split.
  - unfold VecEnv_init, bind, lift, assert, raise, ret. simpl.
    assert ((0 <? n) = true) as -> by (apply Z.ltb_lt; lia).
    erewrite create_backends_ok by reflexivity.
    eexists {| backends := _ |}. split; [reflexivity|].
    unfold VecEnv_close. simpl.
    destruct (Z.to_nat workers) as [|k] eqn:Hk; [lia|]. reflexivity.
  - unfold VecEnv_init, bind, lift, assert, raise, ret. simpl.
    assert ((0 <? n) = true) as -> by (apply Z.ltb_lt; lia).
    erewrite create_backends_ok by reflexivity.
    eexists {| backends := _ |}. unfold VecEnv_close. simpl.
    match goal with |- context [close_loop ?bs] =>
      destruct (close_loop_Multiprocessing bs) as [bs' ->] end.
    eexists. split; reflexivity.
Qed.

Section SharedMemory.
Context {Row : Type} `{!SharedRows Key Obs Row}.

Local Abbreviation shm := (SharedMemoryMultiprocessing Key Obs Act Rew InfoV E Row).

Lemma prod_from_zero (shape : list Z) :
  foldl (fun acc d => np.int64 (acc * d)) 0 shape = 0.
Proof. induction shape as [|d shape IH]; [reflexivity|exact IH]. Qed.

(** What the constructor builds when it returns: [n] is positive, the
    worker is in its loop on [n] environments with no [obs_np] on its
    copy of [self], and the parent holds a buffer of [n] rows. *)
Lemma SharedMemory_init_ok (creator : unit -> E) (n : Z) (obs_shape : list Z)
  (b : shm) :
  SharedMemory_init creator n obs_shape = Ok b ->
  0 < n /\
  b = {| shm_queues :=
           {| request_queue := []; response_queue := [];
              process :=
                Running {| shm_envs := MultiEnv_init creator n;
                           worker_obs_np := None;
                           obs_shm_closed := false |} |};
         obs_np := replicate (Z.to_nat n) (new_row obs_shape) |}.
Proof.
  unfold SharedMemory_init.
  destruct (_ <? 0) eqn:Hsize; [discriminate|].
  destruct (_ =? 0) eqn:Hzero; [discriminate|].
  destruct (existsb _ _) eqn:Hneg; [discriminate|].
  do 2 (case_match; [discriminate|]). intros [= <-].
  split; [|reflexivity].
  simpl in Hneg. apply orb_false_elim in Hneg as [Hneg _].
  apply Z.ltb_ge in Hneg. apply Z.eqb_neq in Hzero.
  destruct (Z.eq_dec n 0) as [->|]; [|lia].
  exfalso. apply Hzero. unfold np.prod. simpl.
  rewrite prod_from_zero. reflexivity.
Qed.

(** C7, as the code has it: [close()] on the shared-memory backend puts
    the message ["close"], never ["terminate"]; the worker finds no
    [close] on its [MultiEnv] and dies of the [AttributeError] with the
    buffer not released; and the ["terminate"] branch itself raises on
    [self.envs.close()] before it reaches [self.obs_shm.close()]. *)
Theorem SharedMemory_close_teardown (creator : unit -> E) (n : Z)
  (obs_shape : list Z) (b : shm) :
  SharedMemory_init creator n obs_shape = Ok b ->
  let b1 := (SharedMemory_close b).1 in
  request_queue b1 = [Req_close] /\
  (exists w,
      run_worker SharedMemory_worker (request_queue b1) (process b1)
        (response_queue b1)
      = ([], [], Died w (AttributeError "close")) /\
      obs_shm_closed w = false) /\
  (forall w : ShmLocal E Row,
      SharedMemory_worker Req_terminate w
      = (Died w (AttributeError "close"), None)).
Proof.
  intros Hinit. apply SharedMemory_init_ok in Hinit as [_ ->].
  simpl. split; [reflexivity|]. split; [|reflexivity].
  eexists. split; reflexivity.
Qed.

(** C4, as the code has it: after [async_reset_all], [recv] of the
    queue backend returns the tuples of the reset, one per
    environment, and [recv] of the shared-memory backend raises,
    unpacking that same list as a [(count, dones)] header. *)
Theorem SharedMemory_recv_after_reset (creator : unit -> E) (n : Z)
  (obs_shape : list Z) (seed : option Z) (q : queues) (b : shm) :
  Multiprocessing_init creator n = Ok q ->
  SharedMemory_init creator n obs_shape = Ok b ->
  (exists q' tuples,
      (Multiprocessing_async_reset_all seed;; Multiprocessing_recv) q
      = (q', Ok (Resp_tuples tuples)) /\
      length tuples = Z.to_nat n /\ (0 < length tuples)%nat) /\
  (exists b' e,
      (SharedMemory_async_reset_all seed;; SharedMemory_recv) b
      = (b', Raise e)).
Proof.
  unfold Multiprocessing_init.
  intros [= <-] Hinit. apply SharedMemory_init_ok in Hinit as [Hn ->].
  split.
  - unfold bind, Multiprocessing_async_reset_all, Multiprocessing_recv,
      put_request, get_response, Multiprocessing_worker, MultiEnv_call.
    simpl.
    pose proof (reset_all_length seed (MultiEnv_init creator n)) as [_ Hl].
    destruct (MultiEnv_reset_all seed (MultiEnv_init creator n))
      as [envs' handles]. simpl in *.
    eexists _, _. split; [reflexivity|].
    unfold MultiEnv_init in Hl. rewrite length_fmap, length_seq in Hl.
    split; lia.
  - unfold SharedMemory_async_reset_all, SharedMemory_recv, bind, inherited,
      put_request, get_response, raise, SharedMemory_worker, MultiEnv_call.
    simpl.
    destruct (MultiEnv_reset_all seed (MultiEnv_init creator n))
      as [envs' handles]. simpl.
    repeat case_match; eauto.
Qed.
End SharedMemory.

End Backends.

(** ** More on the environment pool *)

Section PoolFacts.
Context {Key : Type} `{EqDecision Key} {Obs Act Rew InfoV E : Type}.
Context `{!Environment Key Obs Act Rew InfoV E}.

Local Abbreviation actionmap := (ActionMap Key Act).
Local Abbreviation multienv := (MultiEnv E).

(** X1: [MultiEnv.seed(seed)] reseeds environment [i] with [seed + i] and
    keeps the number of environments. *)
Theorem MultiEnv_seed_consecutive (envs : multienv) (seed : Z) :
  length (MultiEnv_seed seed envs) = length envs /\
  forall (i : nat) (env : E),
    envs !! i = Some env ->
    MultiEnv_seed seed envs !! i = Some (env_seed (seed + Z.of_nat i) env).
Proof.
  revert seed. induction envs as [|e0 envs IH]; intros seed.
  - split; [reflexivity|]. intros; discriminate.
  - destruct (IH (seed + 1)) as [Hlen Hlook]. simpl. split; [lia|].
    intros [|i] env Hi; simpl in *.
    + injection Hi as <-. rewrite Z.add_0_r. reflexivity.
    + replace (seed + Z.of_nat (S i)) with (seed + 1 + Z.of_nat i) by lia.
      exact (Hlook i env Hi).
Qed.

Lemma reset_all_none_lookup (envs : multienv) (e : nat) (env : E) :
  envs !! e = Some env ->
  (MultiEnv_reset_all None envs).1 !! e = Some (env_reset None env).1 /\
  (MultiEnv_reset_all None envs).2 !! e = Some ((env_reset None env).2, [], [], []).
Proof.
  revert e. induction envs as [|e0 envs IH]; intros e He; [discriminate|].
  simpl. destruct (env_reset None e0) as [e0' obs] eqn:E0.
  destruct (MultiEnv_reset_all None envs) as [rest hs] eqn:Er.
  destruct e as [|e]; simpl in *.
  - injection He as <-. rewrite E0. auto.
  - apply IH, He.
Qed.

Lemma reset_all_tuples (seed : option Z) (envs : multienv) :
  Forall (fun t : StepTuple Key Obs Rew InfoV =>
            t.1.1.2 = [] /\ t.1.2 = [] /\ t.2 = [])
    (MultiEnv_reset_all seed envs).2.
Proof.
  revert seed. induction envs as [|e0 envs IH]; intros seed; simpl.
  - constructor.
  - destruct (env_reset seed e0).
    match goal with |- context [MultiEnv_reset_all ?s envs] =>
      specialize (IH s); destruct (MultiEnv_reset_all s envs) end.
    constructor; auto.
Qed.

(** X2: [MultiEnv.reset_all] returns one tuple per environment, each
    with empty rewards, dones and infos, and keeps the number of
    environments; without a seed every environment is reset without
    one. *)
Theorem MultiEnv_reset_all_shape (seed : option Z) (envs : multienv) :
  length (MultiEnv_reset_all seed envs).1 = length envs /\
  length (MultiEnv_reset_all seed envs).2 = length envs /\
  Forall (fun t : StepTuple Key Obs Rew InfoV =>
            t.1.1.2 = [] /\ t.1.2 = [] /\ t.2 = [])
    (MultiEnv_reset_all seed envs).2 /\
  forall (e : nat) (env : E),
    envs !! e = Some env ->
    (MultiEnv_reset_all None envs).1 !! e = Some (env_reset None env).1 /\
    (MultiEnv_reset_all None envs).2 !! e
    = Some ((env_reset None env).2, [], [], []).
Proof.
  destruct (reset_all_length seed envs) as [H1 H2].
  split; [exact H1|]. split; [exact H2|].
  split; [apply reset_all_tuples|]. apply reset_all_none_lookup.
Qed.

Lemma step_loop_length (envs : multienv) (actions_lists : list actionmap) :
  length envs = length actions_lists ->
  length (step_loop envs actions_lists).1 = length envs /\
  length (step_loop envs actions_lists).2 = length envs.
Proof.
  revert actions_lists.
  induction envs as [|e0 envs IH]; intros [|a0 rest] Hlen; try discriminate.
  - auto.
  - simpl. destruct (step_one e0 a0).
    specialize (IH rest ltac:(simpl in Hlen; lia)).
    destruct (step_loop envs rest). simpl in *. lia.
Qed.

(** X3: [MultiEnv.step] on a list of another length than [self.envs]
    raises the [AssertionError] with every environment as it was; on a
    list of that length it returns one tuple per environment and keeps
    their number. *)
Theorem MultiEnv_step_lengths (envs : multienv) (actions_lists : list actionmap) :
  (length envs <> length actions_lists ->
   MultiEnv_step actions_lists envs = (envs, Raise (AssertionError ""))) /\
  (length envs = length actions_lists ->
   exists envs' returns,
     MultiEnv_step actions_lists envs = (envs', Ok returns) /\
     length envs' = length envs /\ length returns = length envs).
Proof.
  split; intros Hlen.
  - unfold MultiEnv_step. rewrite bool_decide_eq_false_2 by exact Hlen.
    reflexivity.
  - rewrite (MultiEnv_step_ok _ _ Hlen).
    destruct (step_loop_length _ _ Hlen) as [H1 H2]. eauto.
Qed.

End PoolFacts.

(** ** More on dictionaries and splitting *)

Section ZipFacts.
Context {K : Type} `{EqDecision K} {V : Type}.

Lemma dict_set_fresh (k : K) (v : V) (d : dict K V) :
  k ∉ keys d -> dict_set k v d = d ++ [(k, v)].
Proof.
  induction d as [|[k0 v0] d IH]; intros Hk; [reflexivity|].
  simpl. unfold keys in Hk. simpl in Hk.
  apply not_elem_of_cons in Hk as [Hne Hk].
  destruct (decide (k = k0)); [contradiction|].
  rewrite IH by exact Hk. reflexivity.
Qed.

Lemma dict_of_fresh (d0 : dict K V) (pairs : list (K * V)) :
  NoDup (pairs.*1) -> (forall k, k ∈ pairs.*1 -> k ∉ keys d0) ->
  foldl (fun d kv => dict_set kv.1 kv.2 d) d0 pairs = d0 ++ pairs.
Proof.
  revert d0. induction pairs as [|[k v] pairs IH]; intros d0 Hnd Hfresh; simpl.
  - rewrite app_nil_r. reflexivity.
  - simpl in Hnd. pose proof (NoDup_cons_1_1 _ _ Hnd) as Hk.
    apply NoDup_cons_1_2 in Hnd.
    rewrite dict_set_fresh by (apply Hfresh; left).
    rewrite IH; [rewrite <- app_assoc; reflexivity | exact Hnd |].
    intros k' Hk'. unfold keys. rewrite fmap_app. simpl.
    intros Hin. apply elem_of_app in Hin as [Hin|Hin].
    + apply (Hfresh k'); [right; exact Hk'|exact Hin].
    + apply list_elem_of_singleton in Hin as ->. contradiction.
Qed.

Lemma zip_fst_take (ks : list K) (vs : list V) :
  (zip ks vs).*1 = take (length vs) ks.
Proof.
  revert vs. induction ks as [|k ks IH]; intros [|v vs]; simpl; try reflexivity.
  rewrite IH. reflexivity.
Qed.

Lemma zip_snd_take (ks : list K) (vs : list V) :
  (zip ks vs).*2 = take (length ks) vs.
Proof.
  revert vs. induction ks as [|k ks IH]; intros [|v vs]; simpl; try reflexivity.
  rewrite IH. reflexivity.
Qed.

(** X4: [dict(zip(keys, atns))] over distinct keys pairs key [j] with
    action [j] in the order of the keys; what either list has beyond the
    length of the other is dropped. *)
Theorem dict_of_zip_distinct (ks : list K) (vs : list V) :
  NoDup ks ->
  dict_of (zip ks vs) = zip ks vs /\
  keys (dict_of (zip ks vs)) = take (length vs) ks /\
  values (dict_of (zip ks vs)) = take (length ks) vs /\
  forall (j : nat) k v,
    ks !! j = Some k -> vs !! j = Some v ->
    dict_get k (dict_of (zip ks vs)) = Some v.
Proof.
  intros Hnd.
  assert (Hzip : forall vs' : list V, NoDup ((zip ks vs').*1)).
  { intros vs'. rewrite zip_fst_take.
    exact (sublist_NoDup _ _ Hnd (sublist_take ks (length vs'))). }
  assert (Heq : dict_of (zip ks vs) = zip ks vs).
  { unfold dict_of. rewrite dict_of_fresh; [reflexivity | apply Hzip |].
    intros k _ Hin. inversion Hin. }
  split; [exact Heq|]. rewrite Heq. unfold keys, values.
  split; [apply zip_fst_take|]. split; [apply zip_snd_take|].
  intros j k v Hk Hv.
  assert (Hj : zip ks vs !! j = Some (k, v)).
  { rewrite lookup_zip_with, Hk, Hv. reflexivity. }
  clear Heq Hk Hv. revert Hj. specialize (Hzip vs). revert Hzip.
  generalize (zip ks vs). intros d. revert j.
  induction d as [|[k0 v0] d IH]; intros j Hd Hj; [discriminate|].
  simpl in Hd. pose proof (NoDup_cons_1_1 _ _ Hd) as Hk0.
  apply NoDup_cons_1_2 in Hd.
  destruct j as [|j]; simpl in *.
  - injection Hj as -> ->. rewrite decide_True by reflexivity. reflexivity.
  - destruct (decide (k = k0)) as [->|Hne].
    + exfalso. apply Hk0. apply list_elem_of_lookup. exists j.
      rewrite list_lookup_fmap, Hj. reflexivity.
    + eapply IH; eauto.
Qed.
End ZipFacts.

Section PartitionFacts.
Context {A : Type}.
Implicit Types l : list A.

Lemma slices_concat l (m k : nat) :
  length l = (k * m)%nat ->
  concat ((fun i => np.slice (i * m) ((i + 1) * m) l) <$> seq 0 k) = l.
Proof.
  revert l. induction k as [|k IH]; intros l Hlen.
  - destruct l; [reflexivity|discriminate].
  - rewrite seq_S, fmap_app, concat_app. simpl. rewrite app_nil_r.
    assert (Hm : (k * m <= length l)%nat) by lia.
    transitivity (take (k * m) l ++ drop (k * m) l); [|apply take_drop].
    f_equal.
    + rewrite <- (IH (take (k * m) l)) by (rewrite length_take; lia).
      f_equal. apply list_fmap_ext. intros j i Hi.
      apply lookup_seq in Hi as [-> Hi]. simpl.
      replace (take (k * m) l) with (np.slice 0 (k * m) l)
        by (unfold np.slice; rewrite Nat.sub_0_r; reflexivity).
      rewrite slice_slice by nia. reflexivity.
    + unfold np.slice. apply take_ge. rewrite length_drop. lia.
Qed.

(** X13: when both levels of the split of [send] succeed, the sub-chunks
    concatenated worker by worker are the batch: no row is lost, repeated
    or moved. *)
Theorem split_twice_partitions l (workers per_worker : Z)
  (chunks : list (list A)) (parts : list (list (list A))) :
  np.split l workers = Ok chunks ->
  Forall2 (fun ch ps => np.split ch per_worker = Ok ps) chunks parts ->
  length chunks = Z.to_nat workers /\
  concat chunks = l /\
  concat (concat parts) = l.
Proof.
  intros Hsplit Hparts.
  assert (Hone : forall (x : list A) s cs,
             np.split x s = Ok cs ->
             length cs = Z.to_nat s /\ concat cs = x).
  { intros x s cs Hs. apply split_ok_inv in Hs as (Hpos & Hmod & ->).
    split; [rewrite length_fmap, length_seq; reflexivity|].
    apply slices_concat.
    assert (Z.of_nat (length x) = s * (Z.of_nat (length x) / s))
      by (apply Z_div_exact_full_2; lia).
    assert (0 <= Z.of_nat (length x) / s) by (apply Z.div_pos; lia).
    apply Nat2Z.inj. rewrite Nat2Z.inj_mul, !Z2Nat.id by lia. lia. }
  destruct (Hone _ _ _ Hsplit) as [Hlen Hcat].
  split; [exact Hlen|]. split; [exact Hcat|].
  rewrite <- Hcat.
  clear Hsplit Hlen Hcat. induction Hparts as [|ch ps chunks' parts' Hs _ IH].
  - reflexivity.
  - simpl. rewrite concat_app, IH. f_equal. apply (Hone _ _ _ Hs).
Qed.
End PartitionFacts.

(** ** The sequential backend *)

Section SerialFacts.
Context {Key : Type} `{EqDecision Key} {Obs Act Rew InfoV E : Type}.
Context `{!Environment Key Obs Act Rew InfoV E}.

Local Abbreviation serial := (Serial Key Obs Rew InfoV E).
Local Abbreviation actionmap := (ActionMap Key Act).
Local Abbreviation vecenv := (VecEnv Key E serial).

(** X5: the single slot of [Serial].  With a result in the slot,
    [async_reset_all] and [send] raise and change nothing, [recv] returns
    the result and empties the slot, and a second [recv] raises.  With
    the slot empty, [recv] raises, [send] then [recv] returns what
    [MultiEnv.step] returns, and [async_reset_all] then [recv] what
    [MultiEnv.reset_all] returns. *)
Theorem Serial_single_slot (b : serial) :
  (forall handles,
      async_handles b = Some handles ->
      (forall seed,
          Serial_async_reset_all seed b
          = (b, Raise (AssertionError "reset called after send"))) /\
      (forall a : list actionmap,
          Serial_send a b
          = (b, Raise (AssertionError "send called before recv"))) /\
      Serial_recv b
      = ({| envs := envs b; async_handles := None |}, Ok (Resp_tuples handles)) /\
      (Serial_recv;; Serial_recv) b
      = ({| envs := envs b; async_handles := None |},
         Raise (AssertionError "recv called before reset or send"))) /\
  (async_handles b = None ->
   Serial_recv b
   = (b, Raise (AssertionError "recv called before reset or send")) /\
   (forall a : list actionmap,
       length (envs b) = length a ->
       (Serial_send a;; Serial_recv) b
       = ({| envs := (step_loop (envs b) a).1; async_handles := None |},
          Ok (Resp_tuples (step_loop (envs b) a).2))) /\
   (forall seed,
       (Serial_async_reset_all seed;; Serial_recv) b
       = ({| envs := (MultiEnv_reset_all seed (envs b)).1;
             async_handles := None |},
          Ok (Resp_tuples (MultiEnv_reset_all seed (envs b)).2)))).
Proof.
  split.
  - intros handles Hh. unfold Serial_async_reset_all, Serial_send, Serial_recv, bind.
    rewrite Hh. simpl. auto.
  - intros Hn. split; [unfold Serial_recv; rewrite Hn; reflexivity|]. split.
    + intros a Hlen. unfold bind, Serial_send. rewrite Hn.
      rewrite (MultiEnv_step_ok _ _ Hlen). reflexivity.
    + intros seed. unfold bind, Serial_async_reset_all. rewrite Hn.
      destruct (MultiEnv_reset_all seed (envs b)). reflexivity.
Qed.

Lemma VecEnv_init_Serial (bnd : Binding E) (workers n : Z) :
  0 < n ->
  exists self : vecenv,
    VecEnv_init bnd workers (PyInt n) [] = (backends self, Ok self) /\
    state self = RESET /\ num_workers self = workers /\
    envs_per_worker self = n /\
    length (backends self) = Z.to_nat workers /\
    Forall (Serial_idle (Z.to_nat n)) (backends self).
Proof.
  intros Hn. unfold VecEnv_init, bind, lift, assert, raise, ret. simpl.
  assert ((0 <? n) = true) as -> by (apply Z.ltb_lt; lia).
  erewrite create_backends_ok by reflexivity.
  eexists {| backends := _ |}. split; [reflexivity|]. simpl.
  repeat split; [apply length_replicate|].
  apply Forall_replicate. split; [reflexivity|]. simpl.
  unfold MultiEnv_init. rewrite length_fmap, length_seq. reflexivity.
Qed.

Lemma async_reset_loop_Serial (self : vecenv) (n : nat) (bs : list serial)
  (seed : option Z) :
  Forall (Serial_idle n) bs ->
  exists bs',
    async_reset_loop self seed bs = (bs', Ok tt) /\
    length bs' = length bs /\ Forall (Serial_pending n) bs'.
Proof.
  intros Hall. revert seed.
  induction Hall as [|b bs [Hnone Hlen] _ IH]; intros seed; simpl.
  - eexists. repeat split. constructor.
  - unfold Serial_async_reset_all. rewrite Hnone.
    destruct (reset_all_length seed (envs b)) as [H1 H2].
    destruct (MultiEnv_reset_all seed (envs b)) as [envs' handles].
    destruct (IH (next_seed self seed)) as (bs' & -> & Hl & Hp).
    eexists. split; [reflexivity|]. simpl. split; [lia|].
    constructor; [|exact Hp]. exists handles. simpl in *. repeat split; lia.
Qed.

(** X6: an orchestrator built on [Serial] with a positive
    [envs_per_worker] completes [async_reset], with or without a seed:
    it is then in state RECV, with as many backends as before and in each
    a reset result per environment waiting. *)
Theorem Serial_fresh_async_reset (bnd : Binding E) (workers n : Z)
  (seed : option Z) :
  0 < n ->
  exists self self' : vecenv,
    VecEnv_init bnd workers (PyInt n) [] = (backends self, Ok self) /\
    VecEnv_async_reset seed self = (self', Ok tt) /\
    state self' = RECV /\
    length (backends self') = Z.to_nat workers /\
    Forall (Serial_pending (Z.to_nat n)) (backends self').
Proof.
  intros Hn.
  destruct (VecEnv_init_Serial bnd workers n Hn)
    as (self & Hinit & Hst & _ & _ & Hlen & Hidle).
  exists self. unfold VecEnv_async_reset. rewrite Hst. simpl.
  destruct (async_reset_loop_Serial (set_state RECV self) _ _ seed Hidle)
    as (bs' & Hloop & Hl & Hp).
  simpl in Hloop. rewrite Hloop.
  eexists. split; [exact Hinit|]. split; [reflexivity|].
  simpl. repeat split; [lia|exact Hp].
Qed.

Lemma gather_envs_lengths (tuples : list (StepTuple Key Obs Rew InfoV)) :
  length (gather_envs tuples).1 = length tuples /\
  length (gather_envs tuples).2.2 = length tuples.
Proof.
  induction tuples as [|[[[o r] d] i] tuples [IH1 IH2]]; [auto|].
  simpl. destruct (gather_envs tuples) as [a_keys [[[obs rws] dns] infos]].
  simpl in *. lia.
Qed.

Lemma recv_loop_Serial (n : nat) (bs : list serial) :
  Forall (Serial_pending n) bs ->
  exists bs' ledger g,
    recv_loop (Act := Act) bs = (bs', ledger, Ok g) /\
    length bs' = length bs /\ Forall (Serial_idle n) bs' /\
    length ledger = length bs /\
    Forall (fun keys_list => length keys_list = n) ledger /\
    length g.2 = (length bs * n)%nat.
Proof.
  induction 1 as [|b bs (handles & Hh & Hl & He) _ IH]; simpl.
  - eexists _, _, _. repeat split; constructor.
  - unfold Serial_recv. rewrite Hh.
    destruct (gather_envs_lengths handles) as [Hk Hi].
    destruct (gather_envs handles) as [a_keys [[[o r] d] i]].
    destruct IH as (bs' & ledger & [[[obs rws] dns] infos] & -> & Hb & Hidle & Hll & Hkl & Hinf).
    eexists _, _, _. split; [reflexivity|]. simpl in *.
    repeat split; try lia.
    + constructor; [split; [reflexivity|exact He]|exact Hidle].
    + constructor; [lia|exact Hkl].
    + rewrite length_app. lia.
Qed.

(** X7: on [Serial] backends that each hold a result per environment,
    [recv] in state RECV fails only if [np.stack] refuses the
    observations.  Either way the orchestrator is left in state SEND,
    every slot is empty and the ledger has an entry per backend with a
    key list per environment. *)
Theorem Serial_recv_drains (self : vecenv) (n : nat) :
  state self = RECV ->
  Forall (Serial_pending n) (backends self) ->
  exists (self' : vecenv) r ledger,
    VecEnv_recv self = (self', r) /\
    state self' = SEND /\
    length (backends self') = length (backends self) /\
    Forall (Serial_idle n) (backends self') /\
    agent_keys self' = Some ledger /\
    length ledger = length (backends self) /\
    Forall (fun keys_list => length keys_list = n) ledger /\
    ((exists g, r = Ok g /\ length g.2 = (length (backends self) * n)%nat) \/
     exists msg, r = Raise (ValueError msg)).
Proof.
  intros Hst Hp. unfold VecEnv_recv. rewrite Hst. simpl.
  destruct (recv_loop_Serial n _ Hp)
    as (bs' & ledger & [[[obs rws] dns] infos] & Hloop & Hb & Hidle & Hll & Hkl & Hinf).
  rewrite Hloop. unfold np.stack.
  destruct obs as [|o obs].
  - eexists _, _, ledger. split; [reflexivity|]. simpl. repeat split; eauto.
  - destruct (forallb _ (o :: obs)).
    + eexists _, _, ledger. split; [reflexivity|]. simpl.
      repeat split; eauto.
    + eexists _, _, ledger. split; [reflexivity|]. simpl. repeat split; eauto.
Qed.

Lemma dispatch_Serial (n : nat) (bs : list serial) (plan : list (list actionmap)) :
  Forall (Serial_idle n) bs ->
  Forall (fun atns_list => length atns_list = n) plan ->
  length plan = length bs ->
  dispatch plan bs
  = (zip_with (fun b atns_list =>
                 {| envs := (step_loop (envs b) atns_list).1;
                    async_handles := Some (step_loop (envs b) atns_list).2 |})
       bs plan, Ok tt).
Proof.
  intros Hidle. revert plan.
  induction Hidle as [|b bs [Hnone Hlen] _ IH]; intros [|p plan] Hplan Hl;
    try discriminate; [reflexivity|].
  inversion Hplan as [|? ? Hp Hplan']; subst.
  simpl. unfold Serial_send. rewrite Hnone.
  rewrite (MultiEnv_step_ok (envs b) p) by lia.
  rewrite (IH plan Hplan') by (simpl in Hl; lia). reflexivity.
Qed.

Lemma shard_plan_lengths (ledger : list (list (list Key))) (actions : list Act)
  (per_worker m : nat) :
  Forall (fun keys_list => length keys_list = per_worker) ledger ->
  length (shard_plan ledger actions per_worker m) = length ledger /\
  Forall (fun atns_list : list actionmap => length atns_list = per_worker)
    (shard_plan ledger actions per_worker m).
Proof.
  intros Hkl. unfold shard_plan. split; [apply length_imap|].
  apply Forall_lookup. intros w p Hp.
  rewrite list_lookup_imap in Hp.
  destruct (ledger !! w) as [kl|] eqn:Hw; [|discriminate].
  injection Hp as <-. unfold action_maps.
  rewrite length_zip_with, length_fmap, length_seq.
  rewrite (Forall_lookup_1 _ _ _ _ Hkl Hw). lia.
Qed.

(** X8: on [Serial] backends with empty slots, [send] in state SEND with
    a full ledger returns for every batch that divides evenly: the
    orchestrator is then in state RECV, and backend [w] has stepped its
    environments on the maps of the shard plan and holds a result per
    environment. *)
Theorem Serial_send_returns (self : vecenv) (actions : list Act)
  (ledger : list (list (list Key))) :
  let n := Z.of_nat (length actions) in
  let W := num_workers self in
  let P := envs_per_worker self in
  state self = SEND ->
  agent_keys self = Some ledger ->
  length ledger = length (backends self) ->
  length (backends self) = Z.to_nat W ->
  Forall (Serial_idle (Z.to_nat P)) (backends self) ->
  Forall (fun keys_list => length keys_list = Z.to_nat P) ledger ->
  0 < W -> n `mod` W = 0 -> 0 < P -> (n / W) `mod` P = 0 ->
  let plan := shard_plan ledger actions (Z.to_nat P) (Z.to_nat (n / (W * P))) in
  exists self' : vecenv,
    VecEnv_send actions self = (self', Ok tt) /\
    state self' = RECV /\
    Forall (Serial_pending (Z.to_nat P)) (backends self') /\
    backends self'
    = zip_with (fun b atns_list =>
                  {| envs := (step_loop (envs b) atns_list).1;
                     async_handles := Some (step_loop (envs b) atns_list).2 |})
        (backends self) plan.
Proof.
  intros n W P Hst Hk Hll Hbs Hidle Hkl HW HmW HP HmP plan.
  assert (Hlen : length actions
                 = (Z.to_nat W * (Z.to_nat P * Z.to_nat (n / (W * P))))%nat).
  { rewrite <- (Nat2Z.id (length actions)). fold n.
    apply shardable_nat; auto. lia. }
  rewrite (send_is_dispatch self actions ledger (Z.to_nat W) (Z.to_nat P)
             (Z.to_nat (n / (W * P)))) by (auto; lia).
  fold plan.
  destruct (shard_plan_lengths ledger actions (Z.to_nat P)
              (Z.to_nat (n / (W * P))) Hkl) as [Hpl Hpe].
  fold plan in Hpl, Hpe.
  rewrite (dispatch_Serial (Z.to_nat P) (backends self) plan Hidle Hpe)
    by lia.
  eexists. split; [reflexivity|]. simpl. split; [reflexivity|].
  split; [|reflexivity].
  apply Forall_lookup. intros w b' Hb'.
  apply lookup_zip_with_Some in Hb' as (b & p & -> & Hb & Hp).
  destruct (Forall_lookup_1 _ _ _ _ Hidle Hb) as [_ He].
  pose proof (Forall_lookup_1 _ _ _ _ Hpe Hp) as Hplen. simpl in Hplen.
  destruct (step_loop_length (envs b) p ltac:(lia)) as [H1 H2].
  eexists. simpl. repeat split; lia.
Qed.

Lemma recv_loop_reset_tuples (bs : list serial) bs' ledger g :
  Forall (fun b : serial =>
            forall handles, async_handles b = Some handles ->
              Forall (fun t : StepTuple Key Obs Rew InfoV =>
                        t.1.1.2 = [] /\ t.1.2 = [] /\ t.2 = []) handles) bs ->
  recv_loop (Act := Act) bs = (bs', ledger, Ok g) ->
  g.1.1.2 = [] /\ g.1.2 = [] /\ Forall (fun i => i = []) g.2.
Proof.
  intros Hall. revert bs' ledger g.
  induction Hall as [|b bs Hb _ IH]; intros bs' ledger g Hloop.
  - injection Hloop as _ _ <-. repeat split. constructor.
  - simpl in Hloop. unfold Serial_recv in Hloop.
    destruct (async_handles b) as [handles|] eqn:Hh; [|discriminate].
    specialize (Hb handles eq_refl).
    assert (Hg : (gather_envs handles).2.1.1.2 = [] /\
                 (gather_envs handles).2.1.2 = [] /\
                 Forall (fun i => i = []) (gather_envs handles).2.2).
    { clear -Hb. induction Hb as [|[[[o r] d] i] hs (Hr & Hd & Hi) _ IHh].
      - repeat split. constructor.
      - simpl in *. subst r d i.
        destruct (gather_envs hs) as [a_keys [[[obs rws] dns] infos]].
        simpl in *. destruct IHh as (-> & -> & Hf). repeat split.
        constructor; [reflexivity|exact Hf]. }
    destruct (gather_envs handles) as [a_keys [[[o r] d] i]]. simpl in Hg.
    destruct Hg as (-> & -> & Hi).
    destruct (recv_loop bs) as [[rest' ledger'] res].
    destruct res as [[[[obs' rws'] dns'] infos']|e|]; try discriminate.
    injection Hloop as _ _ <-.
    destruct (IH _ _ _ eq_refl) as (Hr & Hd & Hinf). simpl in *.
    subst rws' dns'. repeat split. apply Forall_app. auto.
Qed.

(** X18: on [Serial], the [recv] that follows [async_reset] carries no
    reward and no done flag at all, however many agents there are, and an
    empty info map per environment. *)
Theorem Serial_recv_after_reset (self self' : vecenv) (n : nat)
  (seed : option Z) g :
  state self = RESET ->
  Forall (Serial_idle n) (backends self) ->
  (VecEnv_async_reset seed;; VecEnv_recv) self = (self', Ok g) ->
  g.1.1.2 = [] /\ g.1.2 = [] /\
  length g.2 = (length (backends self) * n)%nat /\
  Forall (fun i => i = []) g.2.
Proof.
  intros Hst Hidle. unfold bind, VecEnv_async_reset. rewrite Hst. simpl.
  destruct (async_reset_loop (set_state RECV self) seed (backends self))
    as [bs r] eqn:Hloop.
  assert (Hreset : Forall (fun b : serial =>
            forall handles, async_handles b = Some handles ->
              Forall (fun t : StepTuple Key Obs Rew InfoV =>
                        t.1.1.2 = [] /\ t.1.2 = [] /\ t.2 = []) handles) bs
          /\ r = Ok tt /\ Forall (Serial_pending n) bs
          /\ length bs = length (backends self)).
  { clear -Hidle Hloop. revert seed bs r Hloop.
    induction Hidle as [|b0 bs0 [Hnone Hlen] _ IH]; intros seed bs r Hloop.
    - injection Hloop as <- <-. repeat split; constructor.
    - simpl in Hloop. unfold Serial_async_reset_all in Hloop.
      rewrite Hnone in Hloop.
      pose proof (reset_all_tuples seed (envs b0)) as Ht.
      destruct (reset_all_length seed (envs b0)) as [H1 H2].
      destruct (MultiEnv_reset_all seed (envs b0)) as [envs' handles].
      destruct (async_reset_loop _ _ bs0) as [rest r'] eqn:Hrest.
      injection Hloop as <- <-.
      destruct (IH _ _ _ Hrest) as (Hf & -> & Hp & Hl).
      repeat split; simpl; try lia.
      + constructor; [|exact Hf]. intros hs [= <-]. exact Ht.
      + constructor; [|exact Hp]. exists handles. simpl in *.
        repeat split; lia. }
  destruct Hreset as (Hf & -> & Hp & Hl).
  unfold VecEnv_recv. simpl.
  destruct (recv_loop_Serial n bs Hp)
    as (bs' & ledger & g' & Hrecv & _ & _ & _ & _ & Hinf).
  rewrite Hrecv.
  destruct (recv_loop_reset_tuples _ _ _ _ Hf Hrecv) as (Hr & Hd & Hi).
  destruct g' as [[[obs rws] dns] infos]. simpl in *.
  destruct (np.stack obs_shape obs) as [stacked|e|]; try discriminate.
  intros [= <- <-]. simpl. subst rws dns. repeat split; auto. lia.
Qed.

End SerialFacts.

(** ** More on the orchestrator, for any backend *)

Section OrchestratorFacts.
Context {Key : Type} `{EqDecision Key} {Obs Act Rew InfoV E : Type}.
Context `{!Environment Key Obs Act Rew InfoV E}.
Context {B : Type} `{!Backend Key Obs Act Rew InfoV E B}.

Local Abbreviation vecenv := (VecEnv Key E B).

Lemma gather_envs_counts (tuples : list (StepTuple Key Obs Rew InfoV)) :
  length (gather_envs tuples).2.1.1.1 = length (concat (gather_envs tuples).1) /\
  length (gather_envs tuples).2.2 = length (gather_envs tuples).1.
Proof.
  induction tuples as [|[[[o r] d] i] tuples [IH1 IH2]]; [auto|].
  simpl. destruct (gather_envs tuples) as [a_keys [[[obs rws] dns] infos]].
  simpl in *. unfold keys, values. rewrite !length_app, !length_fmap. lia.
Qed.

Lemma recv_loop_counts (bs bs' : list B) ledger g :
  recv_loop bs = (bs', ledger, Ok g) ->
  length g.1.1.1 = ledger_size ledger /\
  length g.2 = length (concat ledger).
Proof.
  revert bs' ledger g.
  induction bs as [|b0 bs IH]; intros bs' ledger g Hloop.
  - injection Hloop as _ <- <-. auto.
  - simpl in Hloop.
    destruct (backend_recv b0) as [b0' [[tuples| |]|e|]]; try discriminate.
    destruct (gather_envs_counts tuples) as [Ho Hi].
    destruct (gather_envs tuples) as [a_keys [[[o r] d] i]].
    destruct (recv_loop bs) as [[rest' ledger'] res].
    destruct res as [[[[obs' rws'] dns'] infos']|e|]; try discriminate.
    injection Hloop as _ <- <-.
    destruct (IH _ _ _ eq_refl) as [IH1 IH2]. unfold ledger_size in *.
    simpl in *. rewrite concat_app, !length_app. lia.
Qed.

(** X9: when [recv] returns, the stacked batch has one row per agent
    key the ledger then records, in the order of the ledger, [infos] has
    one entry per recorded environment, and there is a ledger entry per
    backend. *)
Theorem VecEnv_recv_counts (self self' : vecenv) g :
  VecEnv_recv self = (self', Ok g) ->
  exists ledger,
    agent_keys self' = Some ledger /\
    length ledger = length (backends self) /\
    length (backends self') = length (backends self) /\
    length g.1.1.1 = ledger_size ledger /\
    length g.2 = length (concat ledger) /\
    (0 < ledger_size ledger)%nat.
Proof.
  intros Hrecv. destruct g as [[[obs rws'] dns'] infos'].
  destruct (recv_ok_inv _ _ _ Hrecv)
    as (bs & ledger & rws & dns & infs & Hloop & Hne & Hself).
  simpl in Hloop, Hne.
  destruct (recv_loop_lengths _ _ _ _ Hloop) as [Hb Hl].
  destruct (recv_loop_counts _ _ _ _ Hloop) as [Ho Hi]. simpl in Ho, Hi.
  assert (infs = infos') as ->.
  { unfold VecEnv_recv in Hrecv. destruct (state self =? RECV); [|discriminate].
    simpl in Hrecv. rewrite Hloop in Hrecv.
    destruct (np.stack obs_shape obs); try discriminate.
    injection Hrecv as _ _ _ _ <-. reflexivity. }
  exists ledger. subst self'. simpl. repeat split; auto.
  rewrite <- Ho. destruct obs; [congruence|simpl; lia].
Qed.

(** X10: the constructor accepts a worker count of zero or below and
    builds no backend; [async_reset] then returns, and the [recv] that
    follows raises the [ValueError] of [np.stack] on an empty list and
    leaves state SEND, where [send] of any batch raises in [np.split]. *)
Theorem VecEnv_no_workers (bnd : Binding E) (workers n : Z)
  (seed : option Z) (actions : list Act) :
  workers <= 0 -> 0 < n ->
  exists self self1 self2 : vecenv,
    VecEnv_init bnd workers (PyInt n) [] = ([], Ok self) /\
    backends self = [] /\
    VecEnv_async_reset seed self = (self1, Ok tt) /\
    VecEnv_recv self1
    = (self2, Raise (ValueError "need at least one array to stack")) /\
    state self2 = SEND /\
    exists e, VecEnv_send actions self2 = (set_state RECV self2, Raise e).
Proof.
  intros Hw Hn. unfold VecEnv_init, bind, lift, assert, raise, ret. simpl.
  assert ((0 <? n) = true) as -> by (apply Z.ltb_lt; lia).
  replace (Z.to_nat workers) with 0%nat by lia. simpl.
  eexists _, _, _. split; [reflexivity|]. split; [reflexivity|].
  split; [reflexivity|]. split; [reflexivity|]. split; [reflexivity|].
  unfold VecEnv_send. simpl.
  destruct (split_raises actions workers) as [e He]; [lia|].
  rewrite He. eauto.
Qed.

Lemma close_loop_ok (bs bs' : list B) :
  close_loop bs = (bs', Ok tt) ->
  forall (w : nat) b,
    bs !! w = Some b ->
    bs' !! w = Some (backend_close b).1 /\ (backend_close b).2 = Ok tt.
Proof.
  revert bs'. induction bs as [|b0 bs IH]; intros bs' Hloop w b Hw;
    [discriminate|].
  simpl in Hloop.
  destruct (backend_close b0) as [b0' [[]|e|]] eqn:Hb0; try discriminate.
  destruct (close_loop bs) as [rest r] eqn:Hrest.
  injection Hloop as <- ->.
  destruct w as [|w]; simpl in *.
  - injection Hw as <-. rewrite Hb0. auto.
  - eapply IH; eauto.
Qed.

Lemma close_loop_raise (bs : list B) (w : nat) b e :
  bs !! w = Some b ->
  (forall (v : nat) b', (v < w)%nat -> bs !! v = Some b' ->
                        (backend_close b').2 = Ok tt) ->
  (backend_close b).2 = Raise e ->
  (close_loop bs).2 = Raise e /\
  (close_loop bs).1 !! w = Some (backend_close b).1 /\
  forall v : nat, (w < v)%nat -> (close_loop bs).1 !! v = bs !! v.
Proof.
  revert w. induction bs as [|b0 bs IH]; intros w Hw Hbefore Hraise;
    [discriminate|].
  destruct w as [|w]; simpl in Hw.
  - injection Hw as ->. simpl.
    destruct (backend_close b) as [b' r]. simpl in Hraise. subst r. simpl.
    repeat split. intros [|v] Hv; [lia|reflexivity].
  - simpl.
    pose proof (Hbefore 0%nat b0 ltac:(lia) eq_refl) as H0.
    destruct (backend_close b0) as [b0' r0]. simpl in H0. subst r0.
    destruct (IH w Hw) as (H1 & H2 & H3); [|exact Hraise|].
    { intros v b' Hv Hb'. apply (Hbefore (S v) b'); [lia|exact Hb']. }
    destruct (close_loop bs) as [rest r]. simpl in *.
    repeat split; auto.
    intros [|v] Hv; [lia|]. simpl. apply H3. lia.
Qed.

(** X11: [VecEnv.close] closes the backends in order and stops at the
    first whose [close] raises: the call raises that exception and every
    later backend is left as it was; when the call returns, every
    backend has been closed. *)
Theorem VecEnv_close_stops (self : vecenv) :
  (forall self',
      VecEnv_close self = (self', Ok tt) ->
      forall (w : nat) b,
        backends self !! w = Some b ->
        backends self' !! w = Some (backend_close b).1 /\
        (backend_close b).2 = Ok tt) /\
  (forall (w : nat) b e,
      backends self !! w = Some b ->
      (forall (v : nat) b', (v < w)%nat -> backends self !! v = Some b' ->
                            (backend_close b').2 = Ok tt) ->
      (backend_close b).2 = Raise e ->
      (VecEnv_close self).2 = Raise e /\
      forall v : nat,
        (w < v)%nat ->
        backends (VecEnv_close self).1 !! v = backends self !! v).
Proof.
  split.
  - intros self' Hclose. unfold VecEnv_close in Hclose.
    destruct (close_loop (backends self)) as [bs r] eqn:Hloop.
    injection Hclose as <- ->. simpl. apply close_loop_ok. exact Hloop.
  - intros w b e Hw Hbefore Hraise.
    destruct (close_loop_raise _ w b e Hw Hbefore Hraise) as (H1 & _ & H3).
    unfold VecEnv_close. destruct (close_loop (backends self)) as [bs r].
    simpl in *. auto.
Qed.

(** X12: a call that passes its state assertion and then raises has
    still made its transition.  After an [async_reset] that raised no
    [async_reset] is accepted again; after a [send] that raised, say on
    a batch that does not split, the next [send] raises the state
    assertion; after a [recv] that raised the next [recv] does. *)
Theorem VecEnv_raise_keeps_transition (self self' : vecenv) (e : Exc) :
  (forall seed seed',
      state self = RESET ->
      VecEnv_async_reset seed self = (self', Raise e) ->
      state self' = RECV /\
      VecEnv_async_reset seed' self'
      = (self', Raise (AssertionError "Call reset only once on initialization"))) /\
  (forall actions actions',
      state self = SEND ->
      VecEnv_send actions self = (self', Raise e) ->
      state self' = RECV /\
      VecEnv_send actions' self'
      = (self', Raise (AssertionError "Call reset + recv before send"))) /\
  (state self = RECV ->
   VecEnv_recv self = (self', Raise e) ->
   state self' = SEND /\
   VecEnv_recv self'
   = (self', Raise (AssertionError "Call reset before stepping"))).
Proof.
  split; [|split].
  - intros seed seed' Hst Hr.
    pose proof (async_reset_loop_state self seed) as Hs.
    rewrite Hr, Hst in Hs. simpl in Hs. split; [exact Hs|].
    unfold VecEnv_async_reset. rewrite Hs. reflexivity.
  - intros actions actions' Hst Hr.
    pose proof (send_state self actions) as Hs.
    rewrite Hr, Hst in Hs. simpl in Hs. split; [exact Hs|].
    unfold VecEnv_send. rewrite Hs. reflexivity.
  - intros Hst Hr.
    pose proof (recv_state self) as Hs.
    rewrite Hr, Hst in Hs. simpl in Hs. split; [exact Hs|].
    unfold VecEnv_recv. rewrite Hs. reflexivity.
Qed.

End OrchestratorFacts.

(** ** The process and actor backends *)

Section RemoteFacts.
Context {Key : Type} `{EqDecision Key} {Obs Act Rew InfoV E : Type}.
Context `{!Environment Key Obs Act Rew InfoV E}.

Local Abbreviation queues := (Multiprocessing Key Obs Act Rew InfoV E).
Local Abbreviation actionmap := (ActionMap Key Act).
Local Abbreviation ray := (Ray Key Obs Rew InfoV E).

(** X14: a queue backend at rest answers [send] then [recv] with the
    tuples of [MultiEnv.step] on its environments and [async_reset_all]
    then [recv] with those of [MultiEnv.reset_all], and is at rest again
    on the environments those calls leave.  Where [MultiEnv.step] raises,
    on a list of another length, the worker dies of the assertion and
    [recv] never returns. *)
Theorem Multiprocessing_mirrors_MultiEnv (q : queues) (envs : MultiEnv E) :
  Queues_quiet q envs ->
  (forall a : list actionmap,
      length envs = length a ->
      exists q',
        (Multiprocessing_send a;; Multiprocessing_recv) q
        = (q', Ok (Resp_tuples (step_loop envs a).2)) /\
        Queues_quiet q' (step_loop envs a).1) /\
  (forall a : list actionmap,
      length envs <> length a ->
      (Multiprocessing_send a;; Multiprocessing_recv) q
      = ({| request_queue := []; response_queue := [];
            process := Died envs (AssertionError "") |}, Blocked)) /\
  (forall seed,
      exists q',
        (Multiprocessing_async_reset_all seed;; Multiprocessing_recv) q
        = (q', Ok (Resp_tuples (MultiEnv_reset_all seed envs).2)) /\
        Queues_quiet q' (MultiEnv_reset_all seed envs).1).
Proof.
  intros (Hreq & Hresp & Hproc).
  split; [|split].
  - intros a Hlen.
    unfold Multiprocessing_send, Multiprocessing_recv, bind, put_request,
      get_response. simpl. rewrite Hreq, Hresp, Hproc. simpl.
    unfold Multiprocessing_worker, MultiEnv_call. simpl.
    rewrite (MultiEnv_step_ok _ _ Hlen). simpl.
    eexists. split; [reflexivity|]. repeat split.
  - intros a Hlen.
    unfold Multiprocessing_send, Multiprocessing_recv, bind, put_request,
      get_response. simpl. rewrite Hreq, Hresp, Hproc. simpl.
    unfold Multiprocessing_worker, MultiEnv_call, MultiEnv_step. simpl.
    rewrite bool_decide_eq_false_2 by exact Hlen. reflexivity.
  - intros seed.
    unfold Multiprocessing_async_reset_all, Multiprocessing_recv, bind,
      put_request, get_response. simpl. rewrite Hreq, Hresp, Hproc. simpl.
    unfold Multiprocessing_worker, MultiEnv_call. simpl.
    destruct (MultiEnv_reset_all seed envs). simpl.
    eexists. split; [reflexivity|]. repeat split.
Qed.

(** X15: [Multiprocessing.seed] puts its request and never takes the
    answer, so after it the answers are one call late: the [recv] that
    follows [async_reset_all] returns the [None] of [seed], the tuples of
    the reset stay on the queue, and the [recv] of an orchestrator on
    such a backend raises [TypeError]. *)
Theorem Multiprocessing_seed_shifts_answers (q : queues) (envs : MultiEnv E)
  (s : Z) (seed : option Z) :
  Queues_quiet q envs ->
  let seeded := MultiEnv_seed s envs in
  let q1 := (Multiprocessing_async_reset_all seed
               (Multiprocessing_seed s q).1).1 in
  Multiprocessing_recv q1
  = ({| request_queue := [];
        response_queue := [Resp_tuples (MultiEnv_reset_all seed seeded).2];
        process := Running (MultiEnv_reset_all seed seeded).1 |},
     Ok Resp_none) /\
  (recv_loop [q1]).2 = Raise TypeError.
Proof.
  intros (Hreq & Hresp & Hproc) seeded q1.
  assert (H1 : Multiprocessing_recv q1
    = ({| request_queue := [];
          response_queue := [Resp_tuples (MultiEnv_reset_all seed seeded).2];
          process := Running (MultiEnv_reset_all seed seeded).1 |},
       Ok Resp_none)).
  { subst q1. unfold Multiprocessing_async_reset_all, Multiprocessing_seed,
      Multiprocessing_recv, put_request, get_response. simpl.
    rewrite Hreq, Hresp, Hproc. simpl.
    unfold Multiprocessing_worker, MultiEnv_call. simpl. fold seeded.
    destruct (MultiEnv_reset_all seed seeded). reflexivity. }
  split; [exact H1|].
  simpl. unfold dict in *. rewrite H1. reflexivity.
Qed.

(** X16: [Multiprocessing.close] returns, but its message kills the
    worker, which finds no [close] on its [MultiEnv]: every later
    request stays on the queue and the [recv] that waits for its answer
    never returns. *)
Theorem Multiprocessing_close_kills_worker (q : queues) (envs : MultiEnv E) :
  Queues_quiet q envs ->
  let q1 := (Multiprocessing_close q).1 in
  (Multiprocessing_close q).2 = Ok tt /\
  (forall a : list actionmap,
      (Multiprocessing_send a;; Multiprocessing_recv) q1
      = ({| request_queue := [Req_step a]; response_queue := [];
            process := Died envs (AttributeError "close") |}, Blocked)) /\
  (forall seed,
      (Multiprocessing_async_reset_all seed;; Multiprocessing_recv) q1
      = ({| request_queue := [Req_reset_all seed]; response_queue := [];
            process := Died envs (AttributeError "close") |}, Blocked)).
Proof.
  intros (Hreq & Hresp & Hproc) q1. subst q1.
  split; [reflexivity|].
  split; intros x;
    unfold Multiprocessing_send, Multiprocessing_async_reset_all,
      Multiprocessing_close, Multiprocessing_recv, bind, put_request,
      get_response; simpl; rewrite Hreq, Hresp, Hproc; reflexivity.
Qed.

(** X17: the future of the [Ray] backend.  [recv] before any [send] or
    reset raises [AttributeError]; after a [send], [recv] gives the
    outcome of that step as often as it is called and changes nothing;
    a second [send] before [recv] steps the environments a second time
    and replaces the future, so the outcome of the first step is lost. *)
Theorem Ray_future_semantics (b : ray) :
  (future b = None -> Ray_recv b = (b, Raise (AttributeError "future"))) /\
  (forall a : list actionmap,
      let b1 := (Ray_send a b).1 in
      let outcome := (Ray_remote_step a (remote_env b)).2 in
      Ray_recv b1 = (b1, outcome) /\
      (Ray_recv;; Ray_recv) b1 = (b1, outcome)) /\
  (forall a1 a2 : list actionmap,
      let once := (Ray_remote_step a1 (remote_env b)).1 in
      (Ray_send a1;; Ray_send a2;; Ray_recv) b
      = ({| remote_env := (Ray_remote_step a2 once).1;
            future := Some (Ray_remote_step a2 once).2 |},
         (Ray_remote_step a2 once).2)).
Proof.
  split; [|split].
  - intros Hf. unfold Ray_recv. rewrite Hf. reflexivity.
  - intros a b1 outcome. subst b1 outcome. unfold Ray_send, Ray_recv, bind.
    destruct (Ray_remote_step a (remote_env b)) as [envs' [r|e|]];
      simpl; auto.
  - intros a1 a2 once. subst once. unfold Ray_send, Ray_recv, bind.
    destruct (Ray_remote_step a1 (remote_env b)) as [envs1 r1]. simpl.
    destruct (Ray_remote_step a2 envs1) as [envs2 r2]. reflexivity.
Qed.

End RemoteFacts.

(** ** The queue backend against the sequential one *)

Section BackendsAgree.
Context {Key : Type} `{EqDecision Key} {Obs Act Rew InfoV E : Type}.
Context `{!Environment Key Obs Act Rew InfoV E}.

Local Abbreviation serial := (Serial Key Obs Rew InfoV E).
Local Abbreviation queues := (Multiprocessing Key Obs Act Rew InfoV E).
Local Abbreviation actionmap := (ActionMap Key Act).

Lemma agree_async_reset_all (b : serial) (q : queues) (seed : option Z) :
  agree_idle b q ->
  exists b' q',
    Serial_async_reset_all seed b = (b', Ok tt) /\
    Multiprocessing_async_reset_all seed q = (q', Ok tt) /\
    agree_pending b' q'.
Proof.
  intros (Hnone & Hreq & Hresp & Hproc).
  unfold Serial_async_reset_all. rewrite Hnone.
  destruct (MultiEnv_reset_all seed (envs b)) as [envs' handles] eqn:Hr.
  eexists _, _. split; [reflexivity|]. split; [reflexivity|].
  exists handles. eexists. simpl. split; [reflexivity|].
  unfold Multiprocessing_recv, get_response. simpl.
  rewrite Hreq, Hresp, Hproc. simpl.
  unfold Multiprocessing_worker, MultiEnv_call. simpl. rewrite Hr.
  split; [reflexivity|]. repeat split.
Qed.

Lemma agree_recv (b : serial) (q : queues) :
  agree_pending b q ->
  exists handles b' q',
    Serial_recv b = (b', Ok (Resp_tuples handles)) /\
    Multiprocessing_recv q = (q', Ok (Resp_tuples handles)) /\
    agree_idle b' q'.
Proof.
  intros (handles & q' & Hh & Hrecv & Hquiet).
  exists handles. eexists _, q'. unfold Serial_recv. rewrite Hh.
  split; [reflexivity|]. split; [exact Hrecv|]. split; [reflexivity|exact Hquiet].
Qed.

Lemma agree_send (b b' : serial) (q : queues) (a : list actionmap) :
  agree_idle b q ->
  Serial_send a b = (b', Ok tt) ->
  exists q',
    Multiprocessing_send a q = (q', Ok tt) /\ agree_pending b' q'.
Proof.
  intros (Hnone & Hreq & Hresp & Hproc). unfold Serial_send. rewrite Hnone.
  unfold MultiEnv_step.
  destruct (bool_decide (length (envs b) = length a)) eqn:Hlen; [|discriminate].
  destruct (step_loop (envs b) a) as [envs' returns] eqn:Hstep.
  intros [= <-]. eexists. split; [reflexivity|].
  exists returns. eexists. simpl. split; [reflexivity|].
  unfold Multiprocessing_recv, get_response. simpl.
  rewrite Hreq, Hresp, Hproc. simpl.
  unfold Multiprocessing_worker, MultiEnv_call, MultiEnv_step. simpl.
  rewrite Hlen, Hstep. split; [reflexivity|]. repeat split.
Qed.

Lemma agree_async_reset_loop (v1 : VecEnv Key E serial) (v2 : VecEnv Key E queues)
  (bs : list serial) (qs : list queues) (seed : option Z) :
  binding v1 = binding v2 -> envs_per_worker v1 = envs_per_worker v2 ->
  Forall2 agree_idle bs qs ->
  exists bs' qs',
    async_reset_loop v1 seed bs = (bs', Ok tt) /\
    async_reset_loop v2 seed qs = (qs', Ok tt) /\
    Forall2 agree_pending bs' qs'.
Proof.
  intros Hb Hp Hall. revert seed.
  induction Hall as [|b q bs qs Hbq _ IH]; intros seed.
  - exists [], []. repeat split. constructor.
  - destruct (agree_async_reset_all b q seed Hbq) as (b' & q' & H1 & H2 & Hpend).
    assert (Hnext : next_seed v1 seed = next_seed v2 seed).
    { unfold next_seed. rewrite Hb, Hp. reflexivity. }
    destruct (IH (next_seed v1 seed)) as (bs' & qs' & H3 & H4 & Hrest).
    cbn [async_reset_loop backend_async_reset_all Serial_Backend
           Multiprocessing_Backend].
    rewrite H1, H2, H3, <- Hnext, H4.
    eexists _, _. split; [reflexivity|]. split; [reflexivity|].
    constructor; assumption.
Qed.

Lemma agree_recv_loop (bs : list serial) (qs : list queues) :
  Forall2 agree_pending bs qs ->
  exists bs' qs' ledger g,
    recv_loop (Act := Act) bs = (bs', ledger, Ok g) /\
    recv_loop qs = (qs', ledger, Ok g) /\
    Forall2 agree_idle bs' qs'.
Proof.
  induction 1 as [|b q bs qs Hbq _ IH].
  - eexists [], [], _, _. repeat split. constructor.
  - destruct (agree_recv b q Hbq) as (handles & b' & q' & H1 & H2 & Hidle).
    destruct IH as (bs' & qs' & ledger & [[[obs rws] dns] infos] & H3 & H4 & Hrest).
    cbn [recv_loop backend_recv Serial_Backend Multiprocessing_Backend].
    rewrite H1, H2, H3, H4.
    destruct (gather_envs handles) as [a_keys [[[o r] d] i]].
    eexists _, _, _, _. split; [reflexivity|]. split; [reflexivity|].
    constructor; assumption.
Qed.

Lemma agree_send_loop (per_worker : Z) (bs bs' : list serial) (qs : list queues)
  (ledger : list (list (list Key))) (chunks : list (list Act)) :
  Forall2 agree_idle bs qs ->
  (length bs <= length ledger)%nat -> (length bs <= length chunks)%nat ->
  send_loop per_worker bs ledger chunks = (bs', Ok tt) ->
  exists qs',
    send_loop per_worker qs ledger chunks = (qs', Ok tt) /\
    Forall2 agree_pending bs' qs'.
Proof.
  intros Hall. revert bs' ledger chunks.
  induction Hall as [|b q bs qs Hbq _ IH]; intros bs' ledger chunks Hl Hc Hloop.
  - destruct ledger, chunks; injection Hloop as <-; exists []; split;
      constructor || reflexivity.
  - destruct ledger as [|kl ledger]; [simpl in Hl; lia|].
    destruct chunks as [|ch chunks]; [simpl in Hc; lia|].
    cbn [send_loop backend_send Serial_Backend Multiprocessing_Backend] in *.
    destruct (np.split ch per_worker) as [atns_list|e|]; try discriminate.
    destruct (Serial_send (action_maps kl atns_list) b) as [b1 [[]|e|]] eqn:Hs;
      try discriminate.
    destruct (send_loop per_worker bs ledger chunks) as [rest r] eqn:Hrest.
    injection Hloop as <- ->.
    destruct (agree_send b b1 q _ Hbq Hs) as (q1 & Hq & Hpend).
    destruct (IH rest ledger chunks ltac:(simpl in Hl; lia)
                ltac:(simpl in Hc; lia) Hrest) as (qs' & Hqs & Hrel).
    rewrite Hq, Hqs. eexists. split; [reflexivity|].
    constructor; assumption.
Qed.

(** X19: an orchestrator on [Multiprocessing] follows one on [Serial]
    that holds the same environments.  Built alike they agree;
    [async_reset] returns on both; [recv] ends on both with the same
    batches or the same exception; and where [send] returns on the
    [Serial] one it returns on the other.  After each call the two hold
    the same environments, ledger and state again. *)
Theorem Multiprocessing_follows_Serial :
  (forall (bnd : Binding E) (workers n : Z),
      0 < n ->
      exists (v1 : VecEnv Key E serial) (v2 : VecEnv Key E queues),
        VecEnv_init bnd workers (PyInt n) [] = (backends v1, Ok v1) /\
        VecEnv_init bnd workers (PyInt n) [] = (backends v2, Ok v2) /\
        orchestrators_agree agree_idle v1 v2) /\
  (forall (v1 : VecEnv Key E serial) (v2 : VecEnv Key E queues) seed,
      orchestrators_agree agree_idle v1 v2 -> state v1 = RESET ->
      exists v1' v2',
        VecEnv_async_reset seed v1 = (v1', Ok tt) /\
        VecEnv_async_reset seed v2 = (v2', Ok tt) /\
        orchestrators_agree agree_pending v1' v2') /\
  (forall (v1 : VecEnv Key E serial) (v2 : VecEnv Key E queues),
      orchestrators_agree agree_pending v1 v2 -> state v1 = RECV ->
      exists v1' v2' r,
        VecEnv_recv v1 = (v1', r) /\ VecEnv_recv v2 = (v2', r) /\
        orchestrators_agree agree_idle v1' v2') /\
  (forall (v1 v1' : VecEnv Key E serial) (v2 : VecEnv Key E queues)
          (actions : list Act) ledger,
      orchestrators_agree agree_idle v1 v2 ->
      agent_keys v1 = Some ledger ->
      length ledger = length (backends v1) ->
      length (backends v1) = Z.to_nat (num_workers v1) ->
      VecEnv_send actions v1 = (v1', Ok tt) ->
      exists v2',
        VecEnv_send actions v2 = (v2', Ok tt) /\
        orchestrators_agree agree_pending v1' v2').
Proof.
  split; [|split; [|split]].
  - intros bnd workers n Hn.
    unfold VecEnv_init, bind, lift, assert, raise, ret. simpl.
    assert ((0 <? n) = true) as -> by (apply Z.ltb_lt; lia).
    erewrite !create_backends_ok by reflexivity.
    eexists {| backends := _ |}, {| backends := _ |}.
    split; [reflexivity|]. split; [reflexivity|].
    unfold orchestrators_agree. simpl. repeat split.
    apply Forall2_replicate. repeat split.
  - intros v1 v2 seed (Hb & Hw & Hp & Hs & Hk & Hall) Hst.
    unfold VecEnv_async_reset. rewrite <- Hs, Hst. simpl.
    destruct (agree_async_reset_loop (set_state RECV v1) (set_state RECV v2)
                (backends v1) (backends v2) seed Hb Hp Hall)
      as (bs' & qs' & H1 & H2 & Hrel).
    rewrite H1, H2. eexists _, _. split; [reflexivity|]. split; [reflexivity|].
    unfold orchestrators_agree. simpl. repeat split; auto.
  - intros v1 v2 (Hb & Hw & Hp & Hs & Hk & Hall) Hst.
    unfold VecEnv_recv. rewrite <- Hs, Hst. simpl.
    destruct (agree_recv_loop _ _ Hall)
      as (bs' & qs' & ledger & [[[obs rws] dns] infos] & H1 & H2 & Hrel).
    rewrite H1, H2.
    destruct (np.stack obs_shape obs) as [stacked|e|];
      eexists _, _, _; (split; [reflexivity|]); (split; [reflexivity|]);
      unfold orchestrators_agree; simpl; repeat split; auto.
  - intros v1 v1' v2 actions ledger (Hb & Hw & Hp & Hs & Hk & Hall)
      Hledger Hll Hbs.
    intros Hsend. unfold VecEnv_send in Hsend.
    destruct (state v1 =? SEND) eqn:Hst; [|discriminate]. simpl in Hsend.
    destruct (np.split actions (num_workers v1)) as [chunks|e|] eqn:Hsplit;
      try discriminate.
    rewrite Hledger in Hsend.
    destruct (send_loop _ (backends v1) ledger chunks) as [bs' r] eqn:Hloop.
    injection Hsend as <- ->.
    pose proof Hsplit as Hsplit'.
    apply split_ok_inv in Hsplit' as (_ & _ & Hchunks).
    assert (Hcl : length chunks = Z.to_nat (num_workers v1))
      by (rewrite Hchunks, length_fmap, length_seq; reflexivity).
    assert (Hle1 : (length (backends v1) <= length ledger)%nat) by lia.
    assert (Hle2 : (length (backends v1) <= length chunks)%nat) by lia.
    destruct (agree_send_loop _ _ _ _ _ _ Hall Hle1 Hle2 Hloop)
      as (qs' & Hq & Hrel).
    eexists. unfold VecEnv_send. rewrite <- Hs, Hst. simpl.
    rewrite <- Hw, Hsplit, <- Hk, Hledger, <- Hp, Hq.
    split; [reflexivity|].
    unfold orchestrators_agree. simpl. repeat split; auto.
Qed.

End BackendsAgree.

(** ** The step path of the shared-memory backend *)

Section SharedMemoryFacts.
Context {Key : Type} `{EqDecision Key} {Obs Act Rew InfoV E : Type}.
Context `{!Environment Key Obs Act Rew InfoV E}.
Context {Row : Type} `{!SharedRows Key Obs Row}.

Local Abbreviation shm := (SharedMemoryMultiprocessing Key Obs Act Rew InfoV E Row).
Local Abbreviation actionmap := (ActionMap Key Act).

Lemma MultiEnv_init_length (creator : unit -> E) (n : Z) :
  length (MultiEnv_init creator n) = Z.to_nat n.
Proof. unfold MultiEnv_init. rewrite length_fmap, length_seq. reflexivity. Qed.

(** X20: [step] on a shared-memory backend never returns.  The worker
    is started before the constructor assigns [obs_np], so its copy of
    [self] has no such attribute: on an action map per environment it
    steps the environments and dies of the [AttributeError] at the first
    row it is to write; on a list of another length it dies of the
    assertion of [MultiEnv.step].  Either way it puts no response, the
    parent blocks on the response queue with its buffer as the
    constructor left it, and every later [step] blocks as well. *)
Theorem SharedMemory_step_blocks (creator : unit -> E) (n : Z)
  (obs_shape : list Z) (b : shm) (a : list actionmap) :
  SharedMemory_init creator n obs_shape = Ok b ->
  exists w e,
    SharedMemory_step a b
    = ({| shm_queues := {| request_queue := []; response_queue := [];
                           process := Died w e |};
          obs_np := replicate (Z.to_nat n) (new_row obs_shape) |}, Blocked) /\
    worker_obs_np w = None /\
    (length a = Z.to_nat n ->
     e = AttributeError "obs_np" /\
     shm_envs w = (step_loop (MultiEnv_init creator n) a).1) /\
    (length a <> Z.to_nat n ->
     e = AssertionError "" /\ shm_envs w = MultiEnv_init creator n) /\
    forall a' : list actionmap,
      SharedMemory_step a' (SharedMemory_step a b).1
      = ({| shm_queues := {| request_queue := [Req_step a'];
                             response_queue := []; process := Died w e |};
            obs_np := replicate (Z.to_nat n) (new_row obs_shape) |}, Blocked).
Proof.
  intros Hinit. apply SharedMemory_init_ok in Hinit as [Hn ->].
  pose proof (MultiEnv_init_length creator n) as Hlen.
  unfold SharedMemory_step, SharedMemory_send, SharedMemory_recv, bind,
    inherited, put_request, get_response.
  simpl. unfold MultiEnv_step.
  destruct (decide (length a = Z.to_nat n)) as [Ha|Ha].
  - rewrite bool_decide_eq_true_2 by congruence.
    pose proof (step_loop_length (MultiEnv_init creator n) a
                  ltac:(congruence)) as [_ Hres].
    destruct (step_loop (MultiEnv_init creator n) a) as [envs' results].
    simpl in Hres.
    destruct results as [|[[[obs rew] dn] info] results];
      [simpl in Hres; lia|].
    simpl. eexists _, _. split; [reflexivity|]. split; [reflexivity|].
    split; [intros _; split; reflexivity|]. split; [congruence|].
    intros a'. reflexivity.
  - rewrite bool_decide_eq_false_2 by congruence.
    simpl. eexists _, _. split; [reflexivity|]. split; [reflexivity|].
    split; [congruence|]. split; [intros _; split; reflexivity|].
    intros a'. reflexivity.
Qed.

End SharedMemoryFacts.

(** ** The actor backend under the orchestrator *)

Section RayFacts.
Context {Key : Type} `{EqDecision Key} {Obs Act Rew InfoV E : Type}.
Context `{!Environment Key Obs Act Rew InfoV E}.

Local Abbreviation serial := (Serial Key Obs Rew InfoV E).
Local Abbreviation ray := (Ray Key Obs Rew InfoV E).
Local Abbreviation actionmap := (ActionMap Key Act).

(** X21: where the assertion of [MultiEnv.step] surfaces.  On a list
    of another length than the environments, [Serial.send] raises the
    [AssertionError] itself and holds no result; [Ray.send] returns, and
    it is the [recv] that follows which raises it, every time it is
    called.  The environments are untouched on both. *)
Theorem Ray_defers_step_error (b : serial) (r : ray) (a : list actionmap) :
  async_handles b = None ->
  remote_env r = envs b ->
  length (envs b) <> length a ->
  Serial_send a b = (b, Raise (AssertionError "")) /\
  exists r',
    Ray_send a r = (r', Ok tt) /\
    remote_env r' = envs b /\
    Ray_recv r' = (r', Raise (AssertionError "")) /\
    (Ray_recv;; Ray_recv) r' = (r', Raise (AssertionError "")).
Proof.
  intros Hnone Henvs Hlen.
  assert (Hstep : forall envs0 : MultiEnv E,
             envs0 = envs b ->
             MultiEnv_step a envs0 = (envs0, Raise (AssertionError ""))).
  { intros envs0 ->. unfold MultiEnv_step.
    rewrite bool_decide_eq_false_2 by exact Hlen. reflexivity. }
  split.
  - unfold Serial_send. rewrite Hnone, (Hstep _ eq_refl).
    destruct b as [envs0 handles]. simpl in *. subst handles. reflexivity.
  - unfold Ray_send, Ray_remote_step. rewrite (Hstep _ Henvs).
    eexists. split; [reflexivity|]. split; [exact Henvs|].
    split; reflexivity.
Qed.

(** X22: [VecEnv.close] on actor backends: with at least one backend
    the call raises the [AttributeError] of the first, an actor of class
    [MultiEnv] having no method [close], and changes nothing; with no
    backend it returns. *)
Theorem VecEnv_close_Ray (self : VecEnv Key E ray) :
  (backends self = [] -> VecEnv_close self = (self, Ok tt)) /\
  (backends self <> [] ->
   VecEnv_close self = (self, Raise (AttributeError "close"))).
Proof.
  destruct self as [bnd W P st bs ks]. unfold VecEnv_close, set_backends.
  simpl. split.
  - intros ->. reflexivity.
  - destruct bs as [|b rest]; [congruence|]. intros _. reflexivity.
Qed.

Lemma Ray_agree_async_reset_all (b : serial) (r : ray) (seed : option Z) :
  Ray_agree_idle b r ->
  exists b' r',
    Serial_async_reset_all seed b = (b', Ok tt) /\
    Ray_async_reset_all (Act := Act) seed r = (r', Ok tt) /\
    Ray_agree_pending b' r'.
Proof.
  intros (Hnone & Henvs).
  unfold Serial_async_reset_all, Ray_async_reset_all, Ray_remote_reset_all.
  rewrite Hnone, Henvs.
  destruct (MultiEnv_reset_all seed (envs b)) as [envs' handles] eqn:Hr.
  eexists _, _. split; [reflexivity|]. split; [reflexivity|].
  exists handles. repeat split.
Qed.

Lemma Ray_agree_recv (b : serial) (r : ray) :
  Ray_agree_pending b r ->
  exists handles b',
    Serial_recv b = (b', Ok (Resp_tuples handles)) /\
    Ray_recv r = (r, Ok (Resp_tuples handles)) /\
    Ray_agree_idle b' r.
Proof.
  intros (handles & Hh & Hf & Henvs).
  exists handles. eexists. unfold Serial_recv, Ray_recv. rewrite Hh, Hf.
  split; [reflexivity|]. split; [reflexivity|]. split; [reflexivity|exact Henvs].
Qed.

Lemma Ray_agree_send (b b' : serial) (r : ray) (a : list actionmap) :
  Ray_agree_idle b r ->
  Serial_send a b = (b', Ok tt) ->
  exists r',
    Ray_send a r = (r', Ok tt) /\ Ray_agree_pending b' r'.
Proof.
  intros (Hnone & Henvs). unfold Serial_send, Ray_send, Ray_remote_step.
  rewrite Hnone, Henvs.
  destruct (MultiEnv_step a (envs b)) as [envs' [returns|e|]];
    try discriminate.
  intros [= <-]. eexists. split; [reflexivity|].
  exists returns. repeat split.
Qed.

Lemma Ray_agree_async_reset_loop (v1 : VecEnv Key E serial)
  (v2 : VecEnv Key E ray) (bs : list serial) (rs : list ray)
  (seed : option Z) :
  binding v1 = binding v2 -> envs_per_worker v1 = envs_per_worker v2 ->
  Forall2 Ray_agree_idle bs rs ->
  exists bs' rs',
    async_reset_loop v1 seed bs = (bs', Ok tt) /\
    async_reset_loop v2 seed rs = (rs', Ok tt) /\
    Forall2 Ray_agree_pending bs' rs'.
Proof.
  intros Hb Hp Hall. revert seed.
  induction Hall as [|b r bs rs Hbr _ IH]; intros seed.
  - exists [], []. repeat split. constructor.
  - destruct (Ray_agree_async_reset_all b r seed Hbr)
      as (b' & r' & H1 & H2 & Hpend).
    assert (Hnext : next_seed v1 seed = next_seed v2 seed).
    { unfold next_seed. rewrite Hb, Hp. reflexivity. }
    destruct (IH (next_seed v1 seed)) as (bs' & rs' & H3 & H4 & Hrest).
    cbn [async_reset_loop backend_async_reset_all Serial_Backend Ray_Backend].
    rewrite H1, H2, H3, <- Hnext, H4.
    eexists _, _. split; [reflexivity|]. split; [reflexivity|].
    constructor; assumption.
Qed.

Lemma Ray_agree_recv_loop (bs : list serial) (rs : list ray) :
  Forall2 Ray_agree_pending bs rs ->
  exists bs' rs' ledger g,
    recv_loop (Act := Act) bs = (bs', ledger, Ok g) /\
    recv_loop (Act := Act) rs = (rs', ledger, Ok g) /\
    Forall2 Ray_agree_idle bs' rs'.
Proof.
  induction 1 as [|b r bs rs Hbr _ IH].
  - eexists [], [], _, _. repeat split. constructor.
  - destruct (Ray_agree_recv b r Hbr) as (handles & b' & H1 & H2 & Hidle).
    destruct IH as (bs' & rs' & ledger & [[[obs rws] dns] infos] & H3 & H4 & Hrest).
    cbn [recv_loop backend_recv Serial_Backend Ray_Backend].
    rewrite H1, H2, H3, H4.
    destruct (gather_envs handles) as [a_keys [[[o rw] d] i]].
    eexists _, _, _, _. split; [reflexivity|]. split; [reflexivity|].
    constructor; assumption.
Qed.

Lemma Ray_agree_send_loop (per_worker : Z) (bs bs' : list serial)
  (rs : list ray) (ledger : list (list (list Key)))
  (chunks : list (list Act)) :
  Forall2 Ray_agree_idle bs rs ->
  (length bs <= length ledger)%nat -> (length bs <= length chunks)%nat ->
  send_loop per_worker bs ledger chunks = (bs', Ok tt) ->
  exists rs',
    send_loop per_worker rs ledger chunks = (rs', Ok tt) /\
    Forall2 Ray_agree_pending bs' rs'.
Proof.
  intros Hall. revert bs' ledger chunks.
  induction Hall as [|b r bs rs Hbr _ IH]; intros bs' ledger chunks Hl Hc Hloop.
  - destruct ledger, chunks; injection Hloop as <-; exists []; split;
      constructor || reflexivity.
  - destruct ledger as [|kl ledger]; [simpl in Hl; lia|].
    destruct chunks as [|ch chunks]; [simpl in Hc; lia|].
    cbn [send_loop backend_send Serial_Backend Ray_Backend] in *.
    destruct (np.split ch per_worker) as [atns_list|e|]; try discriminate.
    destruct (Serial_send (action_maps kl atns_list) b) as [b1 [[]|e|]] eqn:Hs;
      try discriminate.
    destruct (send_loop per_worker bs ledger chunks) as [rest res] eqn:Hrest.
    injection Hloop as <- ->.
    destruct (Ray_agree_send b b1 r _ Hbr Hs) as (r1 & Hr & Hpend).
    assert (Hle1 : (length bs <= length ledger)%nat) by (simpl in Hl; lia).
    assert (Hle2 : (length bs <= length chunks)%nat) by (simpl in Hc; lia).
    destruct (IH rest ledger chunks Hle1 Hle2 Hrest) as (rs' & Hrs & Hrel).
    rewrite Hr, Hrs. eexists. split; [reflexivity|].
    constructor; assumption.
Qed.

(** X23: an orchestrator on [Ray] follows one on [Serial] that holds
    the same environments, as long as the calls return on the [Serial]
    one.  Built alike they agree; [async_reset] returns on both; [recv]
    ends on both with the same batches or the same exception; and where
    [send] returns on the [Serial] one it returns on the other.  After
    each call the two have the same state and ledger and hold the same
    environments, and what waits in a [Serial] slot is the value of the
    actor's future. *)
Theorem Ray_follows_Serial :
  (forall (bnd : Binding E) (workers n : Z),
      0 < n ->
      exists (v1 : VecEnv Key E serial) (v2 : VecEnv Key E ray),
        VecEnv_init bnd workers (PyInt n) [] = (backends v1, Ok v1) /\
        VecEnv_init bnd workers (PyInt n) [] = (backends v2, Ok v2) /\
        orchestrators_agree Ray_agree_idle v1 v2) /\
  (forall (v1 : VecEnv Key E serial) (v2 : VecEnv Key E ray) seed,
      orchestrators_agree Ray_agree_idle v1 v2 -> state v1 = RESET ->
      exists v1' v2',
        VecEnv_async_reset seed v1 = (v1', Ok tt) /\
        VecEnv_async_reset seed v2 = (v2', Ok tt) /\
        orchestrators_agree Ray_agree_pending v1' v2') /\
  (forall (v1 : VecEnv Key E serial) (v2 : VecEnv Key E ray),
      orchestrators_agree Ray_agree_pending v1 v2 -> state v1 = RECV ->
      exists v1' v2' r,
        VecEnv_recv (Act := Act) v1 = (v1', r) /\
        VecEnv_recv (Act := Act) v2 = (v2', r) /\
        orchestrators_agree Ray_agree_idle v1' v2') /\
  (forall (v1 v1' : VecEnv Key E serial) (v2 : VecEnv Key E ray)
          (actions : list Act) ledger,
      orchestrators_agree Ray_agree_idle v1 v2 ->
      agent_keys v1 = Some ledger ->
      length ledger = length (backends v1) ->
      length (backends v1) = Z.to_nat (num_workers v1) ->
      VecEnv_send actions v1 = (v1', Ok tt) ->
      exists v2',
        VecEnv_send actions v2 = (v2', Ok tt) /\
        orchestrators_agree Ray_agree_pending v1' v2').
Proof.
  split; [|split; [|split]].
  - intros bnd workers n Hn.
    unfold VecEnv_init, bind, lift, assert, raise, ret. simpl.
    assert ((0 <? n) = true) as -> by (apply Z.ltb_lt; lia).
    erewrite !create_backends_ok by reflexivity.
    eexists {| backends := _ |}, {| backends := _ |}.
    split; [reflexivity|]. split; [reflexivity|].
    unfold orchestrators_agree. simpl. repeat split.
    apply Forall2_replicate. repeat split.
  - intros v1 v2 seed (Hb & Hw & Hp & Hs & Hk & Hall) Hst.
    unfold VecEnv_async_reset. rewrite <- Hs, Hst. simpl.
    destruct (Ray_agree_async_reset_loop (set_state RECV v1)
                (set_state RECV v2) (backends v1) (backends v2) seed Hb Hp Hall)
      as (bs' & rs' & H1 & H2 & Hrel).
    rewrite H1, H2. eexists _, _. split; [reflexivity|]. split; [reflexivity|].
    unfold orchestrators_agree. simpl. repeat split; auto.
  - intros v1 v2 (Hb & Hw & Hp & Hs & Hk & Hall) Hst.
    unfold VecEnv_recv. rewrite <- Hs, Hst. simpl.
    destruct (Ray_agree_recv_loop _ _ Hall)
      as (bs' & rs' & ledger & [[[obs rws] dns] infos] & H1 & H2 & Hrel).
    rewrite H1, H2.
    destruct (np.stack obs_shape obs) as [stacked|e|];
      eexists _, _, _; (split; [reflexivity|]); (split; [reflexivity|]);
      unfold orchestrators_agree; simpl; repeat split; auto.
  - intros v1 v1' v2 actions ledger (Hb & Hw & Hp & Hs & Hk & Hall)
      Hledger Hll Hbs.
    intros Hsend. unfold VecEnv_send in Hsend.
    destruct (state v1 =? SEND) eqn:Hst; [|discriminate]. simpl in Hsend.
    destruct (np.split actions (num_workers v1)) as [chunks|e|] eqn:Hsplit;
      try discriminate.
    rewrite Hledger in Hsend.
    destruct (send_loop _ (backends v1) ledger chunks) as [bs' r] eqn:Hloop.
    injection Hsend as <- ->.
    pose proof Hsplit as Hsplit'.
    apply split_ok_inv in Hsplit' as (_ & _ & Hchunks).
    assert (Hcl : length chunks = Z.to_nat (num_workers v1))
      by (rewrite Hchunks, length_fmap, length_seq; reflexivity).
    assert (Hle1 : (length (backends v1) <= length ledger)%nat) by lia.
    assert (Hle2 : (length (backends v1) <= length chunks)%nat) by lia.
    destruct (Ray_agree_send_loop _ _ _ _ _ _ Hall Hle1 Hle2 Hloop)
      as (rs' & Hq & Hrel).
    eexists. unfold VecEnv_send. rewrite <- Hs, Hst. simpl.
    rewrite <- Hw, Hsplit, <- Hk, Hledger, <- Hp, Hq.
    split; [reflexivity|].
    unfold orchestrators_agree. simpl. repeat split; auto.
Qed.

End RayFacts.

(** ** The model run on the counter environment *)

(** C6, as the code has it: [reset(seed=7)] resets the four environments
    with no seed, where [async_reset(seed=7)] followed by [recv()] resets
    them with the seeds 7 to 10. *)
Theorem VecEnv_reset_drops_seed :
  (VecEnv_reset (Some 7) Counter.vec).2 = Ok [-1; -1; -1; -1] /\
  ((VecEnv_async_reset (Some 7);;
    let* r := VecEnv_recv in ret r.1.1.1) Counter.vec).2
  = Ok [7; 8; 9; 10].
Proof. split; vm_compute; reflexivity. Qed.

(** C10, where the claim fails.  First, in state SEND with the ledger
    left empty by a [recv] that raised, [send] of two actions to two
    workers of two environments each returns, though one action per
    worker does not split in two.  Second, right after a [recv] that
    returned, [send] of eight actions to the same orchestrator, whose
    four environments have one agent key each, returns: eight divides
    into four sub-chunks of two actions, but each environment is handed
    a map of one action, the first of its sub-chunk, and the other four
    actions reach no environment. *)
Lemma VecEnv_send_sharding_counterexamples :
  (let self := Counter.stale in
   let actions := [1; 2] in
   let n := Z.of_nat (length actions) in
   state self = SEND /\
   ~ (0 < num_workers self /\ n `mod` num_workers self = 0 /\
      0 < envs_per_worker self /\
      (n / num_workers self) `mod` envs_per_worker self = 0) /\
   VecEnv_send actions self = (set_state RECV self, Ok tt)) /\
  (let self := Counter.vec_recvd in
   let actions := [1; 2; 3; 4; 5; 6; 7; 8] in
   let n := Z.of_nat (length actions) in
   let plan := [[[(0%nat, 1)]; [(0%nat, 3)]]; [[(0%nat, 5)]; [(0%nat, 7)]]] in
   (VecEnv_recv Counter.vec_reset).1 = self /\
   is_ok (VecEnv_recv Counter.vec_reset).2 = true /\
   state self = SEND /\
   agent_keys self = Some [[[0%nat]; [0%nat]]; [[0%nat]; [0%nat]]] /\
   n `mod` num_workers self = 0 /\
   (n / num_workers self) `mod` envs_per_worker self = 0 /\
   n / (num_workers self * envs_per_worker self) = 2 /\
   shard_plan [[[0%nat]; [0%nat]]; [[0%nat]; [0%nat]]] actions 2 2 = plan /\
   VecEnv_send actions self
   = (let (bs, r) := dispatch plan (backends self) in
      (set_backends bs (set_state RECV self), r)) /\
   (VecEnv_send actions self).2 = Ok tt /\
   (fun b : Counter.serial => Counter.total <$> envs b)
     <$> backends (VecEnv_send actions self).1
   = [[1; 3]; [5; 7]]).
Proof.
  split.
  - split; [reflexivity|]. split; [|vm_compute; reflexivity].
    intros (_ & _ & _ & H). vm_compute in H. discriminate.
  - repeat split; vm_compute; reflexivity.
Qed.

Lemma VecEnv_ordering_witness :
  exists ledger,
    agent_keys Counter.vec_recvd = Some ledger /\
    (forall actions : list Z,
        length actions = 4%nat ->
        forall (i : nat) k a,
          ledger !! (i / 2)%nat ≫= (.!! (i mod 2)%nat) = Some [k] ->
          actions !! i = Some a ->
          shard_plan ledger actions 2 1 !! (i / 2)%nat ≫= (.!! (i mod 2)%nat)
          = Some [(k, a)]).
Proof.
  destruct (VecEnv_ordering Counter.vec_reset Counter.vec_recvd
              [100; 101; 102; 103] [] [] [[]; []; []; []])
    as (ledger & Hl & _ & _ & Hsend).
  - reflexivity.
  - reflexivity.
  - intros b b' tuples Hb Hr.
    apply elem_of_cons in Hb as [->|Hb];
      [|apply elem_of_cons in Hb as [->|Hb]; [|inversion Hb]];
      injection Hr as <- <-; (split; [reflexivity|repeat constructor]).
  - reflexivity.
  - exists ledger. split; [exact Hl|].
    intros actions Hlen. apply (Hsend actions Hlen).
Defined.

Lemma MultiEnv_step_auto_reset_witness :
  exists envs' returns,
    MultiEnv_step [[(0%nat, 5)]; [(0%nat, 3)]] [Counter.over; Counter.fresh]
    = (envs', Ok returns) /\
    returns !! 0%nat = Some ([(0%nat, -1)], [(0%nat, 0)], [(0%nat, false)], []).
Proof.
  destruct (MultiEnv_step_auto_reset [Counter.over; Counter.fresh]
              [[(0%nat, 5)]; [(0%nat, 3)]] 0 Counter.over [(0%nat, 5)]
              eq_refl eq_refl eq_refl)
    as (envs' & returns & Hstep & _).
  exists envs', returns. split; [exact Hstep|].
  vm_compute in Hstep. injection Hstep as <- <-. reflexivity.
Defined.

Lemma VecEnv_call_order_witness :
  VecEnv_send [1] Counter.vec
  = (Counter.vec, Raise (AssertionError "Call reset + recv before send")) /\
  VecEnv_recv Counter.vec_recvd
  = (Counter.vec_recvd, Raise (AssertionError "Call reset before stepping")) /\
  legal_order [call_async_reset (Some 100); call_recv; call_send [1; 2; 3; 4];
               call_recv] = true.
Proof.
  destruct (@VecEnv_call_order nat _ Z Z Z unit Counter.t _ Counter.serial _)
    as (Hsend & Hrecv & _ & _ & _ & _ & Hrun & _).
  split; [apply Hsend; reflexivity|].
  split.
  - apply (Hrecv Counter.vec_reset Counter.vec_recvd
             ([100; 101; 102; 103], [], [], [[]; []; []; []])).
    reflexivity.
  - apply (Hrun Counter.vec); [reflexivity|].
    vm_compute. repeat constructor.
Defined.


Lemma VecEnv_init_validation_witness :
  (exists e, VecEnv_init Counter.bnd 2 (PyInt 0) ([] : list Counter.serial)
             = ([], Raise e)) /\
  (exists self : Counter.vecenv,
      VecEnv_init Counter.bnd 2 (PyInt 2) [] = ([] ++ backends self, Ok self) /\
      Z.of_nat (length (backends self)) = 2).
Proof.
  destruct (VecEnv_init_validation (B := Counter.serial) Counter.bnd 2 (PyInt 0) [])
    as [Hbad _].
  destruct (VecEnv_init_validation (B := Counter.serial) Counter.bnd 2 (PyInt 2) [])
    as [_ Hgood].
  split.
  - apply Hbad. intros n [= <-]. lia.
  - destruct (Hgood 2 _ eq_refl ltac:(lia) eq_refl)
      as (self & Hinit & _ & Hcount & _).
    exists self. split; [exact Hinit|]. apply Hcount. lia.
Defined.

Lemma VecEnv_send_sharding_witness :
  exists ledger,
    agent_keys Counter.vec_recvd = Some ledger /\
    (exists e, VecEnv_send [1; 2; 3] Counter.vec_recvd
               = (set_state RECV Counter.vec_recvd, Raise e)) /\
    forall ks,
      ledger !! 1%nat ≫= (.!! 0%nat) = Some ks ->
      shard_plan ledger [1; 2; 3; 4] 2 1 !! 1%nat ≫= (.!! 0%nat)
      = Some (dict_of (zip ks (shard [1; 2; 3; 4] 2 1 1 0))).
Proof.
  assert (Hrecv : VecEnv_recv Counter.vec_reset
                  = (Counter.vec_recvd,
                     Ok ([100; 101; 102; 103], [], [], [[]; []; []; []])))
    by reflexivity.
  destruct (VecEnv_send_sharding Counter.vec_reset Counter.vec_recvd _
              [1; 2; 3] eq_refl Hrecv) as (ledger & _ & Hk & Hbad & _).
  destruct (VecEnv_send_sharding Counter.vec_reset Counter.vec_recvd _
              [1; 2; 3; 4] eq_refl Hrecv) as (ledger' & _ & Hk' & _ & Hgood).
  assert (ledger' = ledger) as -> by congruence.
  exists ledger. split; [exact Hk|]. split.
  - apply Hbad. intros (_ & H & _). vm_compute in H. discriminate.
  - intros ks Hks.
    destruct (Hgood ltac:(reflexivity) ltac:(reflexivity) ltac:(reflexivity)
                ltac:(reflexivity)) as [_ Hplan].
    destruct (ledger !! 1%nat) as [kl|] eqn:Hkl; [|discriminate].
    simpl in Hks.
    apply (Hplan 1%nat 0%nat kl ks Hkl Hks). simpl. lia.
Defined.

Lemma VecEnv_close_fresh_witness :
  exists self : Counter.vecenv,
    VecEnv_init Counter.bnd 2 (PyInt 2) [] = (backends self, Ok self) /\
    VecEnv_close self = (self, Raise NotImplementedError).
Proof.
  destruct (VecEnv_close_fresh (Act := Z) Counter.bnd 2 2 ltac:(lia) ltac:(lia))
    as [Hserial _].
  exact Hserial.
Defined.

Lemma SharedMemory_close_teardown_witness :
  exists (b : SharedMemoryMultiprocessing nat Z Z Z unit Counter.t Z) w,
    SharedMemory_init (fun _ => Counter.fresh) 2 [3] = Ok b /\
    run_worker SharedMemory_worker (request_queue (SharedMemory_close b).1)
      (process (SharedMemory_close b).1) (response_queue (SharedMemory_close b).1)
    = ([], [], Died w (AttributeError "close")) /\
    obs_shm_closed w = false.
Proof.
  eexists. 
  destruct (SharedMemory_close_teardown (Row := Z) (fun _ => Counter.fresh) 2 [3] _
              eq_refl) as (_ & (w & Hrun & Hopen) & _).
  exists w. split; [reflexivity|]. split; [exact Hrun|exact Hopen].
Defined.

Lemma SharedMemory_recv_after_reset_witness :
  exists (b : SharedMemoryMultiprocessing nat Z Z Z unit Counter.t Z) b' e,
    SharedMemory_init (fun _ => Counter.fresh) 2 [3] = Ok b /\
    (SharedMemory_async_reset_all (Some 5);; SharedMemory_recv) b = (b', Raise e).
Proof.
  eexists.
  destruct (SharedMemory_recv_after_reset (Row := Z) (fun _ => Counter.fresh) 2 [3]
              (Some 5) _ _ eq_refl eq_refl) as (_ & b' & e & Hraise).
  exists b', e. split; [reflexivity|exact Hraise].
Defined.

(** ** The further properties run on the counter environment *)

Lemma MultiEnv_seed_consecutive_witness :
  MultiEnv_seed 5 CounterRemote.pool !! 1%nat
  = Some (env_seed (5 + Z.of_nat 1) Counter.fresh).
Proof.
  destruct (MultiEnv_seed_consecutive CounterRemote.pool 5) as [_ Hlook].
  apply (Hlook 1%nat Counter.fresh). reflexivity.
Defined.

Lemma MultiEnv_reset_all_shape_witness :
  length (MultiEnv_reset_all (Some 3) CounterRemote.pool).2
  = length CounterRemote.pool /\
  (MultiEnv_reset_all None CounterRemote.pool).2 !! 1%nat
  = Some ((env_reset None Counter.fresh).2, [], [], []).
Proof.
  destruct (MultiEnv_reset_all_shape (Some 3) CounterRemote.pool)
    as (_ & Hlen & _ & Hnone).
  split; [exact Hlen|].
  apply (Hnone 1%nat Counter.fresh). reflexivity.
Defined.

Lemma MultiEnv_step_lengths_witness :
  MultiEnv_step ([] : list (ActionMap nat Z)) CounterRemote.pool
  = (CounterRemote.pool, Raise (AssertionError "")).
Proof.
  destruct (MultiEnv_step_lengths CounterRemote.pool
              ([] : list (ActionMap nat Z))) as [Hbad _].
  apply Hbad. discriminate.
Defined.

Lemma dict_of_zip_distinct_witness :
  dict_of (zip [1%nat; 2%nat; 3%nat] [10; 20])
  = zip [1%nat; 2%nat; 3%nat] [10; 20] /\
  keys (dict_of (zip [1%nat; 2%nat; 3%nat] [10; 20])) = [1%nat; 2%nat].
Proof.
  assert (Hnd : NoDup [1%nat; 2%nat; 3%nat]).
  { repeat (apply NoDup_cons_2; [intros Hin; repeat
      (apply elem_of_cons in Hin as [Hin|Hin]; [discriminate|]);
      inversion Hin|]). apply NoDup_nil_2. }
  destruct (dict_of_zip_distinct [1%nat; 2%nat; 3%nat] [10; 20] Hnd)
    as (Heq & Hkeys & _).
  split; [exact Heq|exact Hkeys].
Defined.

Lemma Serial_single_slot_witness :
  Serial_recv ({| envs := CounterRemote.pool; async_handles := None |}
               : Counter.serial)
  = ({| envs := CounterRemote.pool; async_handles := None |},
     Raise (AssertionError "recv called before reset or send")).
Proof.
  destruct (Serial_single_slot (Act := Z)
              ({| envs := CounterRemote.pool; async_handles := None |}
               : Counter.serial)) as [_ Hempty].
  destruct (Hempty eq_refl) as [Hrecv _]. exact Hrecv.
Defined.

Lemma Serial_fresh_async_reset_witness :
  exists self self' : Counter.vecenv,
    VecEnv_init Counter.bnd 2 (PyInt 2) [] = (backends self, Ok self) /\
    VecEnv_async_reset (Some 100) self = (self', Ok tt) /\
    state self' = RECV.
Proof.
  destruct (Serial_fresh_async_reset (Act := Z) Counter.bnd 2 2 (Some 100)
              ltac:(lia)) as (self & self' & Hinit & Hreset & Hst & _).
  exists self, self'. split; [exact Hinit|]. split; [exact Hreset|exact Hst].
Defined.

Lemma Serial_recv_drains_witness :
  exists (self' : Counter.vecenv) r ledger,
    VecEnv_recv Counter.vec_reset = (self', r) /\
    state self' = SEND /\ agent_keys self' = Some ledger /\
    length ledger = 2%nat.
Proof.
  assert (Hp : Forall (Serial_pending 2) (backends Counter.vec_reset)).
  { repeat constructor; eexists; repeat split. }
  destruct (Serial_recv_drains (Act := Z) Counter.vec_reset 2 eq_refl Hp)
    as (self' & r & ledger & Hr & Hst & _ & _ & Hk & Hl & _).
  exists self', r, ledger. repeat split; assumption.
Defined.

Lemma Serial_send_returns_witness :
  exists self' : Counter.vecenv,
    VecEnv_send [1; 2; 3; 4] Counter.vec_recvd = (self', Ok tt) /\
    state self' = RECV /\
    Forall (Serial_pending 2) (backends self').
Proof.
  assert (Hidle : Forall (Serial_idle (Z.to_nat (envs_per_worker Counter.vec_recvd)))
                    (backends Counter.vec_recvd)).
  { repeat constructor. }
  assert (Hkl : Forall (fun keys_list : list (list nat) =>
                          length keys_list
                          = Z.to_nat (envs_per_worker Counter.vec_recvd))
                  [[[0%nat]; [0%nat]]; [[0%nat]; [0%nat]]]).
  { repeat constructor. }
  destruct (Serial_send_returns Counter.vec_recvd [1; 2; 3; 4]
              [[[0%nat]; [0%nat]]; [[0%nat]; [0%nat]]]
              eq_refl eq_refl eq_refl eq_refl Hidle Hkl
              eq_refl eq_refl eq_refl eq_refl)
    as (self' & Hsend & Hst & Hp & _).
  exists self'. repeat split; assumption.
Defined.

Lemma Serial_recv_after_reset_witness :
  exists (self' : Counter.vecenv) g,
    (VecEnv_async_reset (Some 100);; VecEnv_recv) Counter.vec = (self', Ok g) /\
    g.1.1.2 = [] /\ g.1.2 = [] /\ length g.2 = 4%nat.
Proof.
  assert (Hidle : Forall (Serial_idle 2) (backends Counter.vec)).
  { repeat constructor. }
  assert (Hrun : (VecEnv_async_reset (Some 100);; VecEnv_recv) Counter.vec
                 = (Counter.vec_recvd,
                    Ok ([100; 101; 102; 103], [], [], [[]; []; []; []])))
    by reflexivity.
  destruct (Serial_recv_after_reset (Act := Z) Counter.vec Counter.vec_recvd 2
              (Some 100) _ eq_refl Hidle Hrun) as (Hr & Hd & Hi & _).
  eexists _, _. split; [exact Hrun|]. repeat split; assumption.
Defined.

Lemma VecEnv_recv_counts_witness :
  exists ledger,
    agent_keys Counter.vec_recvd = Some ledger /\
    ledger_size ledger = 4%nat.
Proof.
  assert (Hrecv : VecEnv_recv Counter.vec_reset
                  = (Counter.vec_recvd,
                     Ok ([100; 101; 102; 103], [], [], [[]; []; []; []])))
    by reflexivity.
  destruct (VecEnv_recv_counts Counter.vec_reset Counter.vec_recvd _ Hrecv)
    as (ledger & Hk & _ & _ & Hsize & _).
  exists ledger. split; [exact Hk|]. symmetry. exact Hsize.
Defined.

Lemma VecEnv_no_workers_witness :
  exists self self1 self2 : Counter.vecenv,
    VecEnv_init Counter.bnd 0 (PyInt 2) [] = ([], Ok self) /\
    VecEnv_async_reset None self = (self1, Ok tt) /\
    VecEnv_recv self1
    = (self2, Raise (ValueError "need at least one array to stack")).
Proof.
  destruct (VecEnv_no_workers (B := Counter.serial) Counter.bnd 0 2 None [1]
              ltac:(lia) ltac:(lia))
    as (self & self1 & self2 & Hinit & _ & Hreset & Hrecv & _).
  exists self, self1, self2. repeat split; assumption.
Defined.

Lemma VecEnv_close_stops_witness :
  (VecEnv_close Counter.vec).2 = Raise NotImplementedError /\
  backends (VecEnv_close Counter.vec).1 !! 1%nat = backends Counter.vec !! 1%nat.
Proof.
  destruct (VecEnv_close_stops Counter.vec) as [_ Hstop].
  destruct (Hstop 0%nat
              ({| envs := CounterRemote.pool; async_handles := None |}
               : Counter.serial) NotImplementedError eq_refl)
    as [Hraise Hlater].
  - intros v b' Hv. lia.
  - reflexivity.
  - split; [exact Hraise|]. apply Hlater. lia.
Defined.

Lemma VecEnv_raise_keeps_transition_witness :
  state CounterRemote.after_bad_send = RECV /\
  VecEnv_send [1; 2; 3; 4] CounterRemote.after_bad_send
  = (CounterRemote.after_bad_send,
     Raise (AssertionError "Call reset + recv before send")).
Proof.
  destruct (VecEnv_raise_keeps_transition Counter.vec_recvd
              CounterRemote.after_bad_send
              (ValueError "array split does not result in an equal division"))
    as (_ & Hsend & _).
  apply (Hsend [1; 2; 3] [1; 2; 3; 4]); reflexivity.
Defined.

Lemma split_twice_partitions_witness :
  concat (concat [[[1]; [2]]; [[3]; [4]]]) = [1; 2; 3; 4].
Proof.
  destruct (split_twice_partitions [1; 2; 3; 4] 2 2 [[1; 2]; [3; 4]]
              [[[1]; [2]]; [[3]; [4]]] eq_refl) as (_ & _ & Hcat).
  - repeat constructor.
  - exact Hcat.
Defined.

Lemma Multiprocessing_mirrors_MultiEnv_witness :
  exists q',
    (Multiprocessing_async_reset_all (Some 7);; Multiprocessing_recv)
      CounterRemote.at_rest
    = (q', Ok (Resp_tuples (MultiEnv_reset_all (Some 7) CounterRemote.pool).2)).
Proof.
  destruct (Multiprocessing_mirrors_MultiEnv CounterRemote.at_rest
              CounterRemote.pool) as (_ & _ & Hreset).
  - repeat split.
  - destruct (Hreset (Some 7)) as (q' & Hrun & _). exists q'. exact Hrun.
Defined.

Lemma Multiprocessing_seed_shifts_answers_witness :
  (Multiprocessing_recv
     (Multiprocessing_async_reset_all (Some 7)
        (Multiprocessing_seed 3 CounterRemote.at_rest).1).1).2
  = Ok Resp_none.
Proof.
  destruct (Multiprocessing_seed_shifts_answers CounterRemote.at_rest
              CounterRemote.pool 3 (Some 7)) as [Hrecv _].
  - repeat split.
  - rewrite Hrecv. reflexivity.
Defined.

Lemma Multiprocessing_close_kills_worker_witness :
  ((Multiprocessing_async_reset_all (Some 7);; Multiprocessing_recv)
     (Multiprocessing_close CounterRemote.at_rest).1).2
  = Blocked.
Proof.
  destruct (Multiprocessing_close_kills_worker CounterRemote.at_rest
              CounterRemote.pool) as (_ & _ & Hreset).
  - repeat split.
  - rewrite (Hreset (Some 7)). reflexivity.
Defined.

Lemma Ray_future_semantics_witness :
  Ray_recv CounterRemote.actor
  = (CounterRemote.actor, Raise (AttributeError "future")).
Proof.
  destruct (Ray_future_semantics (Act := Z) CounterRemote.actor) as [Hnone _].
  apply Hnone. reflexivity.
Defined.

Lemma Multiprocessing_follows_Serial_witness :
  exists (v1 : Counter.vecenv)
         (v2 : VecEnv nat Counter.t CounterRemote.queues),
    VecEnv_init Counter.bnd 2 (PyInt 2) [] = (backends v1, Ok v1) /\
    VecEnv_init Counter.bnd 2 (PyInt 2) [] = (backends v2, Ok v2) /\
    orchestrators_agree agree_idle v1 v2.
Proof.
  destruct (@Multiprocessing_follows_Serial nat _ Z Z Z unit Counter.t _)
    as [Hinit _].
  exact (Hinit Counter.bnd 2 2 ltac:(lia)).
Defined.

Lemma SharedMemory_step_blocks_witness :
  exists b : CounterRemote.shared,
    SharedMemory_init (fun _ => Counter.fresh) 2 [3] = Ok b /\
    (SharedMemory_step [[(0%nat, 1)]; [(0%nat, 1)]] b).2 = Blocked.
Proof.
  eexists. split; [reflexivity|].
  destruct (SharedMemory_step_blocks (Row := Z) (fun _ => Counter.fresh) 2 [3] _
              [[(0%nat, 1)]; [(0%nat, 1)]] eq_refl)
    as (w & e & Hstep & _).
  rewrite Hstep. reflexivity.
Defined.

Lemma Ray_defers_step_error_witness :
  exists r' : CounterRemote.ray,
    Ray_send ([] : list (ActionMap nat Z)) CounterRemote.actor = (r', Ok tt) /\
    Ray_recv r' = (r', Raise (AssertionError "")).
Proof.
  destruct (Ray_defers_step_error
              ({| envs := CounterRemote.pool; async_handles := None |}
               : Counter.serial)
              CounterRemote.actor ([] : list (ActionMap nat Z))
              eq_refl eq_refl)
    as [_ (r' & Hsend & _ & Hrecv & _)].
  - discriminate.
  - exists r'. split; [exact Hsend|exact Hrecv].
Defined.

Lemma VecEnv_close_Ray_witness :
  VecEnv_close CounterRemote.on_actor
  = (CounterRemote.on_actor, Raise (AttributeError "close")).
Proof.
  destruct (VecEnv_close_Ray (Act := Z) CounterRemote.on_actor) as [_ Hraise].
  apply Hraise. discriminate.
Defined.

Lemma Ray_follows_Serial_witness :
  exists (v1 : Counter.vecenv) (v2 : VecEnv nat Counter.t CounterRemote.ray),
    VecEnv_init Counter.bnd 2 (PyInt 2) [] = (backends v1, Ok v1) /\
    VecEnv_init Counter.bnd 2 (PyInt 2) [] = (backends v2, Ok v2) /\
    orchestrators_agree Ray_agree_idle v1 v2.
Proof.
  destruct (@Ray_follows_Serial nat _ Z Z Z unit Counter.t _) as [Hinit _].
  exact (Hinit Counter.bnd 2 2 ltac:(lia)).
Defined.
